(** * lieu.dedupe: address and venue de-duplication

    A shallow embedding of [lib/lieu/dedupe.py] and the properties of its
    blocking-key generation and of its three-valued dupe decisions.

    Conventions of the embedding.
    - A Python value that is [None], [True] or [False] is an [option bool];
      [None] is the Indeterminate decision.
    - An address record is read only through [dict.get]; it is a pair of finite
      maps, one per key class of [lieu.address] ([AddressComponents], whose
      values are strings, and [Coordinates], whose values are numbers).
    - A string is a sequence of code points below 256.  A coordinate is a
      float: a finite value, given by its exact rational, an infinity or NaN.
    - The external collaborators (libpostal's [expand_address], the [geohash]
      module, [fuzzy.DMetaphone], [lieu.similarity]) are interfaces.  Every
      call to one of them is recorded in a call log, so that "returns before
      calling" is a statement about the log. *)

From Stdlib Require Import Ascii String QArith.
From stdpp Require Import base gmap strings list.

Local Open Scope string_scope.
Local Open Scope list_scope.

(** ** Python strings *)

Module PyStr.

Definition code (c : ascii) : nat := nat_of_ascii c.

(** [str.isspace] on one code point below 256; the characters [\s] and
    [str.split()] treat as whitespace. *)
Definition is_space (c : ascii) : bool :=
  let n := code c in
  (Nat.leb 9 n && Nat.leb n 13) || (Nat.leb 28 n && Nat.leb n 32)
  || Nat.eqb n 133 || Nat.eqb n 160.

(** [str.lower] on one code point below 256. *)
Definition lower_char (c : ascii) : ascii :=
  let n := code c in
  if (Nat.leb 65 n && Nat.leb n 90)
     || (Nat.leb 192 n && Nat.leb n 222 && negb (Nat.eqb n 215))
  then ascii_of_nat (n + 32) else c.

(** [s.lower()] *)
Fixpoint lower (s : string) : string :=
  match s with
  | EmptyString => EmptyString
  | String c s' => String (lower_char c) (lower s')
  end.

(** [whitespace_regex.sub(u'', s)] with [whitespace_regex = '[\s]+']:
    every maximal run of whitespace is replaced by the empty string, that
    is, every whitespace character is deleted. *)
Fixpoint remove_whitespace (s : string) : string :=
  match s with
  | EmptyString => EmptyString
  | String c s' =>
      if is_space c then remove_whitespace s' else String c (remove_whitespace s')
  end.

(** [s.split()]: the maximal runs of non-whitespace characters, in order.
    [cur] is the run being read, reversed. *)
Definition flush (cur : list ascii) (acc : list string) : list string :=
  match cur with
  | [] => acc
  | _ => string_of_list_ascii (rev cur) :: acc
  end.

Fixpoint split_go (s : string) (cur : list ascii) : list string :=
  match s with
  | EmptyString => flush cur []
  | String c s' =>
      if is_space c then flush cur (split_go s' [])
      else split_go s' (c :: cur)
  end.

Definition split (s : string) : list string := split_go s [].

(** [sep.join(l)] *)
Definition join (sep : string) (l : list string) : string := String.concat sep l.

(** [s[:n]] for a Python int [n]: the first [n] characters, or all but the
    last [-n] when [n] is negative. *)
Definition take_chars (n : nat) (s : string) : string := String.substring 0 n s.

Definition slice_to (n : Z) (s : string) : string :=
  if (0 <=? n)%Z then take_chars (Z.to_nat n) s
  else take_chars (String.length s - Z.to_nat (- n)) s.

(** [not s] for a value that is [None] or a string. *)
Definition falsy (v : option string) : bool :=
  match v with
  | None => true
  | Some s => if decide (s = "") then true else false
  end.

End PyStr.

(** ** Python floats *)

(** A float: a finite value (the two zeros are one), an infinity or NaN. *)
Inductive PyFloat := Finite (q : Q) | PosInf | NegInf | NaN.

Module Float.

(** [x <= y]; a comparison with NaN is false. *)
Definition leb (x y : PyFloat) : bool :=
  match x, y with
  | NaN, _ | _, NaN => false
  | NegInf, _ => true
  | _, PosInf => true
  | Finite p, Finite q => Qle_bool p q
  | _, _ => false
  end.

(** [x >= y] *)
Definition geb (x y : PyFloat) : bool := leb y x.

End Float.

(** ** Records and component types *)

(** The keys of [lieu.address.AddressComponents] that the module reads. *)
Inductive AddressComponents := NAME | HOUSE_NUMBER | STREET | UNIT | FLOOR.

(** The keys of [lieu.address.Coordinates]. *)
Inductive Coordinates := LATITUDE | LONGITUDE.

(** The component flags of [postal.expand]. *)
Inductive PostalComponent :=
  ADDRESS_NAME | ADDRESS_STREET | ADDRESS_UNIT | ADDRESS_LEVEL | ADDRESS_HOUSE_NUMBER.

#[global] Instance AddressComponents_eq_dec : EqDecision AddressComponents.
Proof. solve_decision. Defined.

#[global] Instance Coordinates_eq_dec : EqDecision Coordinates.
Proof. solve_decision. Defined.

#[global] Instance PostalComponent_eq_dec : EqDecision PostalComponent.
Proof. solve_decision. Defined.

Definition AddressComponents_index (k : AddressComponents) : nat :=
  match k with NAME => 0 | HOUSE_NUMBER => 1 | STREET => 2 | UNIT => 3 | FLOOR => 4 end.

Definition AddressComponents_of_index (n : nat) : option AddressComponents :=
  match n with
  | 0 => Some NAME | 1 => Some HOUSE_NUMBER | 2 => Some STREET
  | 3 => Some UNIT | 4 => Some FLOOR | _ => None
  end.

#[global] Program Instance AddressComponents_countable : Countable AddressComponents :=
  inj_countable AddressComponents_index AddressComponents_of_index _.
Next Obligation. by intros []. Qed.

Definition Coordinates_index (k : Coordinates) : nat :=
  match k with LATITUDE => 0 | LONGITUDE => 1 end.

Definition Coordinates_of_index (n : nat) : option Coordinates :=
  match n with 0 => Some LATITUDE | 1 => Some LONGITUDE | _ => None end.

#[global] Program Instance Coordinates_countable : Countable Coordinates :=
  inj_countable Coordinates_index Coordinates_of_index _.
Next Obligation. by intros []. Qed.

(** An address record, as far as [address.get(key)] can see it. *)
Record Address := {
  components : gmap AddressComponents string;
  coordinates : gmap Coordinates PyFloat;
}.

(** [address.get(key)] for a key of [AddressComponents] *)
Definition get (a : Address) (key : AddressComponents) : option string :=
  components a !! key.

(** [address.get(key)] for a key of [Coordinates] *)
Definition get_coordinate (a : Address) (key : Coordinates) : option PyFloat :=
  coordinates a !! key.

(** [v] when it is truthy (a non-empty string), for use after a guard
    [if not v: return ...]. *)
Definition truthy (v : option string) : option string :=
  match v with
  | Some s => if PyStr.falsy (Some s) then None else Some s
  | None => None
  end.

(** ** Collaborators and the call log *)

(** [postal.expand.expand_address(value, address_components=component)] *)
Class Expander := {
  expand_address : string -> PostalComponent -> list string;
}.

(** [geohash.encode(lat, lon)] (at the module's precision of 12) and
    [geohash.neighbors(cell)] *)
Class GeoHasher := {
  geohash_encode : PyFloat -> PyFloat -> string;
  geohash_neighbors : string -> list string;
}.

(** [fuzzy.DMetaphone()] applied to [lieu.encoding.safe_encode(token)]; a
    code may be [None]. *)
Class PhoneticEncoder := {
  safe_encode : string -> string;
  double_metaphone : string -> list (option string);
}.

(** [lieu.similarity] and the methods of the TF-IDF model object. *)
Class SimilarityScorer := {
  word_counts : Type;
  tfidf_vec : Type;
  tfidf_model : Type;
  ordered_word_count : list string -> word_counts;
  tfidf_vector : tfidf_model -> word_counts -> tfidf_vec;
  normalized_tfidf_vector : tfidf_model -> tfidf_vec -> tfidf_vec;
  soft_tfidf_similarity : tfidf_vec -> tfidf_vec -> Q;
}.

(** [lieu.floats.isclose(a, b)] *)
Class Floats := {
  isclose : PyFloat -> PyFloat -> bool;
}.

(** [lieu.similarity.jaccard_similarity(tokens1, tokens2)] *)
Class JaccardScorer := {
  jaccard_similarity : list string -> list string -> Q;
}.

Inductive Call :=
| ExpandAddress (value : string) (component : PostalComponent)
| GeohashEncode (lat lon : PyFloat)
| GeohashNeighbors (cell : string)
| DoubleMetaphone (token : string)
| OrderedWordCount (tokens : list string)
| TfidfVector
| NormalizedTfidfVector
| SoftTfidfSimilarity.

(** A computation that returns a value and the collaborator calls it made,
    in order. *)
Definition Traced (A : Type) : Type := A * list Call.

Definition value {A} (m : Traced A) : A := fst m.
Definition calls {A} (m : Traced A) : list Call := snd m.

#[global] Instance Traced_ret : MRet Traced := λ A x, (x, []).

#[global] Instance Traced_bind : MBind Traced :=
  λ A B f m, let r := f (fst m) in (fst r, snd m ++ snd r).

Definition traced {A} (c : Call) (x : A) : Traced A := (x, [c]).

(** [itertools.product] of the lists [ls]: the tuples in lexicographic order, the last
    position varying fastest. *)
Fixpoint product {A} (ls : list (list A)) : list (list A) :=
  match ls with
  | [] => [[]]
  | l :: ls' => x ← l; t ← product ls'; [x :: t]
  end.

(** [any(ls)] for a tuple of lists: some list is non-empty. *)
Definition any_nonempty {A} (ls : list (list A)) : bool :=
  existsb (λ l, match l with [] => false | _ => true end) ls.

(** [not v] and [v1 and v2] for values that are [None], [True] or [False]. *)
Definition py_not (v : option bool) : bool :=
  match v with Some true => false | _ => true end.

Definition py_and (v1 v2 : option bool) : option bool :=
  if py_not v1 then v1 else v2.

(** What a classmethod reads through [cls]: the class attribute
    [DEFAULT_GEOHASH_PRECISION] and the method [component_expansions], the
    only ones a subclass in this module overrides. *)
Record DeduperClass := {
  cls_DEFAULT_GEOHASH_PRECISION : Z;
  cls_component_expansions : Address -> Traced (list (list string));
}.

(** ** class AddressDeduper *)

Module AddressDeduper.
Section Methods.
Context `{Expander} `{GeoHasher} `{Floats}.

Definition DEFAULT_GEOHASH_PRECISION : Z := 7.

Definition component_equals (c1 c2 : string) (component : PostalComponent)
  (no_whitespace : option bool) : Traced bool :=
let no_whitespace := default true no_whitespace in
expansions1 ← traced (ExpandAddress c1 component) (expand_address c1 component);
expansions2 ← traced (ExpandAddress c2 component) (expand_address c2 component);
let sets : gset string * gset string :=
  if negb no_whitespace then
    (list_to_set expansions1, list_to_set expansions2)
  else
    (list_to_set (PyStr.remove_whitespace <$> expansions1),
     list_to_set (PyStr.remove_whitespace <$> expansions2)) in
mret (Nat.ltb 0 (size (sets.1 ∩ sets.2))).

Definition is_address_dupe (a1 a2 : Address) : Traced (option bool) :=
let a1_street := get a1 STREET in
let a2_street := get a2 STREET in
let a1_house_number := get a1 HOUSE_NUMBER in
let a2_house_number := get a2 HOUSE_NUMBER in
match truthy a1_street, truthy a2_street,
      truthy a1_house_number, truthy a2_house_number with
| Some a1_street, Some a2_street, Some a1_house_number, Some a2_house_number =>
    same_street ← component_equals a1_street a2_street ADDRESS_STREET None;
    same_house_number ←
      component_equals a1_house_number a2_house_number ADDRESS_HOUSE_NUMBER None;
    mret (Some (same_street && same_house_number))
| _, _, _, _ => mret None
end.

(** The body of the [for key, component in ...] loop of
  [is_sub_building_dupe], over the fields still to visit. *)
Fixpoint is_sub_building_dupe_loop (fields : list (AddressComponents * PostalComponent))
  (a1 a2 : Address) : Traced bool :=
match fields with
| [] => mret true
| (key, component) :: fields' =>
    let a1_field := get a1 key in
    let a2_field := get a2 key in
    match truthy a1_field, truthy a2_field with
    | Some a1_field, Some a2_field =>
        same ← component_equals a1_field a2_field component None;
        if negb same then mret false
        else is_sub_building_dupe_loop fields' a1 a2
    | None, None => is_sub_building_dupe_loop fields' a1 a2
    | _, _ => mret false
    end
end.

Definition is_sub_building_dupe (a1 a2 : Address) : Traced bool :=
is_sub_building_dupe_loop [(UNIT, ADDRESS_UNIT); (FLOOR, ADDRESS_LEVEL)] a1 a2.

Definition is_dupe (a1 a2 : Address) (with_unit : option bool) : Traced (option bool) :=
let with_unit := default true with_unit in
same_address ← is_address_dupe a1 a2;
if py_not same_address then mret same_address
else if negb with_unit then mret (Some true)
else same_unit ← is_sub_building_dupe a1 a2; mret (Some same_unit).

Definition component_expansions (address : Address) : Traced (list (list string)) :=
let street := get address STREET in
let house_number := get address HOUSE_NUMBER in
match truthy street, truthy house_number with
| Some street, Some house_number =>
    street_expansions ←
      traced (ExpandAddress street ADDRESS_STREET) (expand_address street ADDRESS_STREET);
    house_number_expansions ←
      traced (ExpandAddress house_number ADDRESS_HOUSE_NUMBER)
             (expand_address house_number ADDRESS_HOUSE_NUMBER);
    mret [street_expansions; house_number_expansions]
| _, _ => mret []
end.

(** The loop [for keys in product(geohash_neighbors, *address_expansions):
  yield u'|'.join(keys)]. *)
Definition yield_keys (geohash_neighbors : list string)
  (address_expansions : list (list string)) : list string :=
PyStr.join "|" <$> product (geohash_neighbors :: address_expansions).

(** The keys the generator yields, in order.  The default of
  [geohash_precision] is the value the name [DEFAULT_GEOHASH_PRECISION]
  has in the body of [class AddressDeduper], where the [def] is
  evaluated; [component_expansions] is looked up on [cls]. *)
Definition near_dupe_hashes (cls : DeduperClass) (address : Address)
  (geohash_precision : option Z) : Traced (list string) :=
let geohash_precision := default DEFAULT_GEOHASH_PRECISION geohash_precision in
address_expansions ← cls_component_expansions cls address;
let lat := get_coordinate address LATITUDE in
let lon := get_coordinate address LONGITUDE in
match lat, lon with
| Some lat, Some lon =>
    if (isclose lat (Finite 0) && isclose lon (Finite 0))
       || Float.geb lat (Finite 90) || Float.leb lat (Finite (-90))
       || negb (any_nonempty address_expansions)
    then mret []
    else
      code ← traced (GeohashEncode lat lon) (geohash_encode lat lon);
      let geo := PyStr.slice_to geohash_precision code in
      neighbors ← traced (GeohashNeighbors geo) (geohash_neighbors geo);
      let geohash_neighbors := [geo] ++ neighbors in
      mret (yield_keys geohash_neighbors address_expansions)
| _, _ => mret []
end.

Definition cls : DeduperClass := {|
cls_DEFAULT_GEOHASH_PRECISION := DEFAULT_GEOHASH_PRECISION;
cls_component_expansions := component_expansions;
|}.

End Methods.
End AddressDeduper.

(** ** class NameDeduper *)

Module NameDeduper.

(** The class attributes, which a subclass presets. *)
Record Config := {
  stopwords : gset string;
  discriminative_words : gset string;
  replacements : gmap string string;
  cfg_default_dupe_threshold : Q;
  ignore_parentheticals : bool;
}.

(** The float [0.9]. *)
Definition default_dupe_threshold : Q := 8106479329266893 # 9007199254740992.

(** The attributes of [NameDeduper] itself. *)
Definition base : Config := {|
  stopwords := ∅;
  discriminative_words := ∅;
  replacements := ∅;
  cfg_default_dupe_threshold := default_dupe_threshold;
  ignore_parentheticals := false;
|}.

Definition tokenize (s : string) : list string := PyStr.split s.

Definition newline : ascii := ascii_of_nat 10.

(** The greedy match of [.*\)] at the start of [s]: what is left of [s]
    after its last [")"] that no newline precedes, if there is one. *)
Fixpoint paren_match_tail (s : string) : option string :=
  match s with
  | EmptyString => None
  | String c s' =>
      if decide (c = newline) then None
      else match paren_match_tail s' with
           | Some rest => Some rest
           | None => if decide (c = ")"%char) then Some s' else None
           end
  end.

(** [paren_regex.sub(u'', s)] with [paren_regex = '\(.*\)'], scanning at
    most [fuel] characters. *)
Fixpoint paren_regex_sub_fuel (fuel : nat) (s : string) : string :=
  match fuel, s with
  | S fuel', String c s' =>
      if decide (c = "("%char) then
        match paren_match_tail s' with
        | Some rest => paren_regex_sub_fuel fuel' rest
        | None => String c (paren_regex_sub_fuel fuel' s')
        end
      else String c (paren_regex_sub_fuel fuel' s')
  | _, _ => s
  end.

Definition paren_regex_sub (s : string) : string :=
  paren_regex_sub_fuel (String.length s) s.

(** The result of the substitution is bound to [tokens], which the
    [return] does not read. *)
Definition content_tokens (cls : Config) (s : string) : list string :=
  let tokens := if ignore_parentheticals cls then Some (paren_regex_sub s) else None in
  tokenize (PyStr.lower s).

Section Similarity.
Context `{SimilarityScorer}.

Definition compare_in_memory (tokens1 tokens2 : list string) (tfidf : tfidf_model)
    : Traced Q :=
  token_counts1 ← traced (OrderedWordCount tokens1) (ordered_word_count tokens1);
  token_counts2 ← traced (OrderedWordCount tokens2) (ordered_word_count tokens2);
  tfidf1 ← traced TfidfVector (tfidf_vector tfidf token_counts1);
  tfidf2 ← traced TfidfVector (tfidf_vector tfidf token_counts2);
  tfidf1_norm ← traced NormalizedTfidfVector (normalized_tfidf_vector tfidf tfidf1);
  tfidf2_norm ← traced NormalizedTfidfVector (normalized_tfidf_vector tfidf tfidf2);
  traced SoftTfidfSimilarity (soft_tfidf_similarity tfidf1_norm tfidf2_norm).

End Similarity.

(** [jaccard_similarity] is called in tail position; its result is the
    result, and the call is kept out of the call log. *)
Definition compare_ideographs `{JaccardScorer} (cls : Config) (s1 s2 : string) : Q :=
  let tokens1 := content_tokens cls s1 in
  let tokens2 := content_tokens cls s2 in
  if decide (PyStr.join "" tokens1 = PyStr.join "" tokens2) then 1%Q
  else jaccard_similarity tokens1 tokens2.

End NameDeduper.

(** ** class VenueDeduper(AddressDeduper) *)

Module VenueDeduper.
Section Methods.
Context `{Expander} `{GeoHasher} `{Floats} `{PhoneticEncoder} `{SimilarityScorer}.

Definition DEFAULT_GEOHASH_PRECISION : Z := 6.

Definition is_exact_name_dupe (name1 name2 : string) : Traced bool :=
AddressDeduper.component_equals name1 name2 ADDRESS_NAME None.

Definition is_dupe (a1 a2 : Address) (tfidf : option tfidf_model)
  (name_dupe_threshold : option Q) (with_unit : option bool) : Traced (option bool) :=
let name_dupe_threshold :=
  default NameDeduper.default_dupe_threshold name_dupe_threshold in
let with_unit := default false with_unit in
let a1_name := get a1 NAME in
let a2_name := get a2 NAME in
match truthy a1_name, truthy a2_name with
| Some a1_name, Some a2_name =>
    same_address ← AddressDeduper.is_address_dupe a1 a2;
    if py_not same_address then mret same_address
    else
      same_unit ← (if with_unit then AddressDeduper.is_sub_building_dupe a1 a2
                   else mret true);
      if negb same_unit then mret (Some same_unit)
      else
        same_name ← is_exact_name_dupe a1_name a2_name;
        same_name ←
          match tfidf with
          | Some tfidf =>
              if negb same_name then
                let a1_name_tokens := NameDeduper.content_tokens NameDeduper.base a1_name in
                let a2_name_tokens := NameDeduper.content_tokens NameDeduper.base a2_name in
                sim ← NameDeduper.compare_in_memory a1_name_tokens a2_name_tokens tfidf;
                mret (Qle_bool name_dupe_threshold sim)
              else mret same_name
          | None => mret same_name
          end;
        mret (py_and same_address (Some same_name))
| _, _ => mret None
end.

(** One round of the inner [for t in tokens] loop. *)
Definition add_token_hashes (name_expanded_words : gset string) (t : string)
  : Traced (gset string) :=
codes ← traced (DoubleMetaphone (safe_encode t)) (double_metaphone (safe_encode t));
let dm : gset string := list_to_set (omap id codes) in
mret (if decide (dm = ∅) then name_expanded_words ∪ {[t]}
      else name_expanded_words ∪ dm).

Fixpoint for_each {A B} (body : B -> A -> Traced B) (l : list A) (acc : B) : Traced B :=
match l with
| [] => mret acc
| x :: l' => acc' ← body acc x; for_each body l' acc'
end.

Definition name_word_hashes (name : string) : Traced (gset string) :=
expansions ← traced (ExpandAddress name ADDRESS_NAME) (expand_address name ADDRESS_NAME);
for_each (λ name_expanded_words n,
            for_each add_token_hashes (NameDeduper.tokenize n) name_expanded_words)
         expansions ∅.

(** [list(name_expanded_words)] enumerates the set in the order of
  [elements]. *)
Definition component_expansions (address : Address) : Traced (list (list string)) :=
let name := get address NAME in
match truthy name with
| Some name =>
    expansions ← AddressDeduper.component_expansions address;
    match expansions with
    | [] => mret []
    | _ =>
        name_expanded_words ← name_word_hashes name;
        mret ([elements name_expanded_words] ++ expansions)
    end
| None => mret []
end.

Definition cls : DeduperClass := {|
cls_DEFAULT_GEOHASH_PRECISION := DEFAULT_GEOHASH_PRECISION;
cls_component_expansions := component_expansions;
|}.

End Methods.
End VenueDeduper.

(** ** Vocabulary of the properties *)

(** The record has a non-empty value under [key]. *)
Definition has_component (a : Address) (key : AddressComponents) : Prop :=
  ∃ s, get a key = Some s ∧ s ≠ "".

(** The expansions of the record's value under [key]; none when the value is
    missing or empty. *)
Definition expansions_of `{Expander} (a : Address) (key : AddressComponents)
    (component : PostalComponent) : list string :=
  match truthy (get a key) with
  | Some s => expand_address s component
  | None => []
  end.

(** The expansions as [component_equals] compares them: stripped of
    whitespace unless [no_whitespace] is given as false. *)
Definition compared (no_whitespace : option bool) (expansions : list string)
    : list string :=
  if default true no_whitespace then PyStr.remove_whitespace <$> expansions
  else expansions.

(** The test that makes [near_dupe_hashes] return at once, on coordinates
    that are present. *)
Definition no_emission `{Floats} (lat lon : PyFloat)
    (address_expansions : list (list string)) : bool :=
  (isclose lat (Finite 0) && isclose lon (Finite 0))
  || Float.geb lat (Finite 90) || Float.leb lat (Finite (-90))
  || negb (any_nonempty address_expansions).


(** The geo-cell of a coordinate at the precision [near_dupe_hashes] uses
    when it is given [geohash_precision]. *)
Definition geo_cell `{GeoHasher} (geohash_precision : option Z) (lat lon : PyFloat)
    : string :=
  PyStr.slice_to (default AddressDeduper.DEFAULT_GEOHASH_PRECISION geohash_precision)
                 (geohash_encode lat lon).

(** The characters of a string. *)
Definition chars (s : string) : list ascii := list_ascii_of_string s.

(** What the description of [content_tokens] asks for: lower-case, drop the
    parentheticals when the class says so, then tokenize. *)
Definition content_tokens_described (cls : NameDeduper.Config) (s : string) : list string :=
  NameDeduper.tokenize
    (PyStr.lower (if NameDeduper.ignore_parentheticals cls
                  then NameDeduper.paren_regex_sub s else s)).

(** One field of the sub-building test: both records have it and the values
    are component-equal, or neither record has it. *)
Definition field_passes `{Expander} (a1 a2 : Address) (key : AddressComponents)
    (component : PostalComponent) : Prop :=
  match truthy (get a1 key), truthy (get a2 key) with
  | Some f1, Some f2 =>
      value (AddressDeduper.component_equals f1 f2 component None) = true
  | None, None => True
  | _, _ => False
  end.

(** The phonetic codes of a token that are not [None]. *)
Definition token_codes `{PhoneticEncoder} (t : string) : list string :=
  omap id (double_metaphone (safe_encode t)).

(** [w] stands for the token [t] among the name-word hashes: it is one of the
    codes of [t], or [t] itself when [t] has no code. *)
Definition stands_for `{PhoneticEncoder} (t w : string) : Prop :=
  w ∈ token_codes t ∨ (token_codes t = [] ∧ w = t).

(** The record has coordinates for which keys are emitted. *)
Definition locatable `{Floats} (a : Address) (lat lon : Q) : Prop :=
  get_coordinate a LATITUDE = Some (Finite lat)
  ∧ get_coordinate a LONGITUDE = Some (Finite lon)
  ∧ (-90 < lat)%Q ∧ (lat < 90)%Q
  ∧ (isclose (Finite lat) (Finite 0) && isclose (Finite lon) (Finite 0)) = false.

(** The cells [near_dupe_hashes] enumerates for a coordinate. *)
Definition cells_of `{GeoHasher} (geohash_precision : option Z) (lat lon : PyFloat)
    : list string :=
  geo_cell geohash_precision lat lon
  :: geohash_neighbors (geo_cell geohash_precision lat lon).

(** The decision on the names once address and sub-building agree. *)
Definition names_match `{Expander} `{SimilarityScorer} (name1 name2 : string)
    (tfidf : option tfidf_model) (name_dupe_threshold : option Q) : bool :=
  value (AddressDeduper.component_equals name1 name2 ADDRESS_NAME None)
  || match tfidf with
     | Some tfidf =>
         Qle_bool (default NameDeduper.default_dupe_threshold name_dupe_threshold)
                  (value (NameDeduper.compare_in_memory
                            (NameDeduper.content_tokens NameDeduper.base name1)
                            (NameDeduper.content_tokens NameDeduper.base name2) tfidf))
     | None => false
     end.

(** A run of characters that holds no whitespace. *)
Definition clean (l : list ascii) : Prop := Forall (λ c, PyStr.is_space c = false) l.

(** ** A small world to run the code in *)

Module Sample.

(** An expander that lower-cases and knows one abbreviation. *)
#[export] Instance expander : Expander := {|
  expand_address s component :=
    let l := PyStr.lower s in
    match component with
    | ADDRESS_STREET =>
        if decide (l = "main st") then ["main st"; "main street"] else [l]
    | _ => [l]
    end;
|}.

(** The same expander, enumerating in the opposite order. *)
Definition expander_rev : Expander := {|
  expand_address s component := rev (expand_address s component);
|}.

(** A geohasher with one cell per hemisphere and eight named neighbours. *)
#[export] Instance geohasher : GeoHasher := {|
  geohash_encode lat lon :=
    match lat with
    | Finite q => if Qle_bool 0 q then "u4pruydqqvj8" else "k4pruydqqvj8"
    | _ => "7zzzzzzzzzzz"
    end;
  geohash_neighbors cell :=
    (λ d, String.append cell d) <$> ["-n"; "-ne"; "-e"; "-se"; "-s"; "-sw"; "-w"; "-nw"];
|}.

Definition geohasher_rev : GeoHasher := {|
  geohash_encode := geohash_encode;
  geohash_neighbors cell := rev (geohash_neighbors cell);
|}.

#[export] Instance floats : Floats := {|
  isclose a b :=
    match a, b with
    | Finite p, Finite q => Qeq_bool p q
    | PosInf, PosInf | NegInf, NegInf => true
    | _, _ => false
    end;
|}.

#[export] Instance phonetic : PhoneticEncoder := {|
  safe_encode s := s;
  double_metaphone t :=
    match t with
    | EmptyString => [None; None]
    | String c _ => [Some (String c EmptyString); None]
    end;
|}.

#[export] Instance scorer : SimilarityScorer := {|
  word_counts := list string;
  tfidf_vec := list string;
  tfidf_model := unit;
  ordered_word_count tokens := tokens;
  tfidf_vector _ counts := counts;
  normalized_tfidf_vector _ v := v;
  soft_tfidf_similarity v1 v2 := if decide (v1 = v2) then 1%Q else 0%Q;
|}.

Definition record (fields : list (AddressComponents * string))
    (coords : list (Coordinates * PyFloat)) : Address :=
  {| components := list_to_map fields; coordinates := list_to_map coords |}.

Definition cafe : Address :=
  record [(NAME, "Cafe Luna"); (STREET, "Main St"); (HOUSE_NUMBER, "12")]
         [(LATITUDE, Finite 57.64911); (LONGITUDE, Finite 10.40744)].

Definition cafe' : Address :=
  record [(NAME, "Cafe Luna"); (STREET, "Main Street"); (HOUSE_NUMBER, "12")]
         [(LATITUDE, Finite 57.64911); (LONGITUDE, Finite 10.40744)].

Definition nameless : Address :=
  record [(STREET, "Main St"); (HOUSE_NUMBER, "12")]
         [(LATITUDE, Finite 57.64911); (LONGITUDE, Finite 10.40744)].

Definition streetless : Address :=
  record [(NAME, "Cafe Luna"); (HOUSE_NUMBER, "12")]
         [(LATITUDE, Finite 57.64911); (LONGITUDE, Finite 10.40744)].

Definition polar : Address :=
  record [(NAME, "Cafe Luna"); (STREET, "Main St"); (HOUSE_NUMBER, "12")]
         [(LATITUDE, Finite 90); (LONGITUDE, Finite 10.40744)].


Definition model : @tfidf_model scorer := tt.

#[export] Instance jaccard : JaccardScorer := {|
  jaccard_similarity tokens1 tokens2 :=
    let common := filter (λ t, t ∈ tokens2) (remove_dups tokens1) in
    let all := remove_dups (tokens1 ++ tokens2) in
    Z.of_nat (length common) # Pos.of_nat (length all);
|}.

Definition suite5 : Address :=
  record [(NAME, "Cafe Luna"); (STREET, "Main St"); (HOUSE_NUMBER, "12"); (UNIT, "Suite 5")]
         [(LATITUDE, Finite 57.64911); (LONGITUDE, Finite 10.40744)].

Definition suite6 : Address :=
  record [(NAME, "Cafe Luna"); (STREET, "Main St"); (HOUSE_NUMBER, "12"); (UNIT, "Suite 6")]
         [(LATITUDE, Finite 57.64911); (LONGITUDE, Finite 10.40744)].

Definition number14 : Address :=
  record [(NAME, "Cafe Luna"); (STREET, "Main St"); (HOUSE_NUMBER, "14")]
         [(LATITUDE, Finite 57.64911); (LONGITUDE, Finite 10.40744)].

Definition bar : Address :=
  record [(NAME, "Bar Sol"); (STREET, "Main Street"); (HOUSE_NUMBER, "12")]
         [(LATITUDE, Finite 57.64911); (LONGITUDE, Finite 10.40744)].

Definition ignoring_parentheticals : NameDeduper.Config := {|
  NameDeduper.stopwords := ∅;
  NameDeduper.discriminative_words := ∅;
  NameDeduper.replacements := ∅;
  NameDeduper.cfg_default_dupe_threshold := NameDeduper.default_dupe_threshold;
  NameDeduper.ignore_parentheticals := true;
|}.

End Sample.

(** * Properties *)

(** ** The code on small inputs *)

Section SampleRuns.
Import Sample.

Example split_ex : PyStr.split "  No 12	b " = ["No"; "12"; "b"].
Proof. reflexivity. Qed.

Example slice_ex : PyStr.slice_to 7 "u4pruydqqvj8" = "u4pruyd" /\ PyStr.slice_to (-2) "abcde" = "abc"
  /\ PyStr.slice_to 9 "abc" = "abc" /\ PyStr.slice_to (-9) "abc" = "".
Proof. repeat split; reflexivity. Qed.

Example product_ex : product [["a"; "b"]; ["x"]; ["1"; "2"]]
  = [["a"; "x"; "1"]; ["a"; "x"; "2"]; ["b"; "x"; "1"]; ["b"; "x"; "2"]].
Proof. reflexivity. Qed.

Example paren_regex_sub_ex :
  NameDeduper.paren_regex_sub "a (b) c (d) e ( f" = "a  e ( f"
  /\ NameDeduper.paren_regex_sub "Kangaroo Point (NSW)" = "Kangaroo Point "
  /\ NameDeduper.paren_regex_sub ") x (" = ") x (".
Proof. repeat split; reflexivity. Qed.

Example sample_address_keys :
  value (AddressDeduper.near_dupe_hashes AddressDeduper.cls Sample.cafe None)
  = [ "u4pruyd|main st|12"; "u4pruyd|main street|12";
      "u4pruyd-n|main st|12"; "u4pruyd-n|main street|12";
      "u4pruyd-ne|main st|12"; "u4pruyd-ne|main street|12";
      "u4pruyd-e|main st|12"; "u4pruyd-e|main street|12";
      "u4pruyd-se|main st|12"; "u4pruyd-se|main street|12";
      "u4pruyd-s|main st|12"; "u4pruyd-s|main street|12";
      "u4pruyd-sw|main st|12"; "u4pruyd-sw|main street|12";
      "u4pruyd-w|main st|12"; "u4pruyd-w|main street|12";
      "u4pruyd-nw|main st|12"; "u4pruyd-nw|main street|12" ].
Proof. vm_compute. reflexivity. Qed.

Example sample_venue_dupe :
  value (VenueDeduper.is_dupe Sample.cafe Sample.cafe' None None None) = Some true.
Proof. vm_compute. reflexivity. Qed.

End SampleRuns.

(** ** Strings and products *)

Lemma remove_whitespace_chars (s : string) :
  chars (PyStr.remove_whitespace s) = filter (λ c, PyStr.is_space c = false) (chars s).
Proof.
  induction s as [|c s IH]; [done|].
  cbn [PyStr.remove_whitespace chars list_ascii_of_string].
  rewrite filter_cons. fold (chars s).
  destruct (PyStr.is_space c) eqn:Hc.
  - rewrite decide_False by done. exact IH.
  - rewrite decide_True by done. cbn [chars list_ascii_of_string]. by f_equal.
Qed.

Lemma bind_Permutation_ext {A B} (f g : A → list B) (l l' : list A) :
  (∀ x, f x ≡ₚ g x) → l ≡ₚ l' → l ≫= f ≡ₚ l' ≫= g.
Proof.
  intros Hfg Hl. rewrite <- Hl. clear l' Hl.
  induction l as [|x l IH]; [done|].
  rewrite !bind_cons. by rewrite IH, (Hfg x).
Qed.

Lemma product_Permutation {A} (ls ls' : list (list A)) :
  Forall2 (≡ₚ) ls ls' → product ls ≡ₚ product ls'.
Proof.
  induction 1 as [|l l' ls ls' Hl _ IH]; [done|].
  cbn [product]. apply bind_Permutation_ext; [|done].
  intros x. by rewrite IH.
Qed.

Lemma bind_cons_each {A} (x : A) (ts : list (list A)) :
  ts ≫= (λ t, [x :: t]) = (x ::.) <$> ts.
Proof.
  induction ts as [|t ts IHt]; [done|].
  rewrite bind_cons, IHt. reflexivity.
Qed.


Lemma yield_keys_Permutation (cells cells' : list string) (exps exps' : list (list string)) :
  cells ≡ₚ cells' → Forall2 (≡ₚ) exps exps' →
  AddressDeduper.yield_keys cells exps ≡ₚ AddressDeduper.yield_keys cells' exps'.
Proof.
  intros Hc He. unfold AddressDeduper.yield_keys.
  apply fmap_Permutation, product_Permutation. by constructor.
Qed.

(** ** Truthiness of record fields *)

Lemma truthy_Some (v : option string) (s : string) :
  truthy v = Some s ↔ v = Some s ∧ s ≠ "".
Proof.
  destruct v as [t|]; cbn [truthy PyStr.falsy].
  - destruct (decide (t = "")) as [->|Hne]; split.
    + done.
    + intros [[= <-] ?]. done.
    + intros [= <-]. done.
    + intros [[= <-] ?]. done.
  - split; [done | by intros [? _]].
Qed.

Lemma truthy_None (a : Address) (key : AddressComponents) :
  truthy (get a key) = None ↔ ¬ has_component a key.
Proof.
  unfold has_component. split.
  - intros Hn (s & Hs & Hne). assert (truthy (get a key) = Some s) as Heq
      by (by apply truthy_Some). congruence.
  - intros Hno. destruct (truthy (get a key)) as [s|] eqn:Ht; [|done].
    apply truthy_Some in Ht. destruct Hno. by exists s.
Qed.

Lemma truthy_has (a : Address) (key : AddressComponents) (s : string) :
  get a key = Some s → s ≠ "" → truthy (get a key) = Some s.
Proof. intros. by apply truthy_Some. Qed.

(** ** Component equality and the address decision *)

Section Decisions.
Context `{Expander} `{GeoHasher} `{Floats} `{PhoneticEncoder} `{SimilarityScorer}.

Lemma component_equals_eq (c1 c2 : string) (component : PostalComponent)
    (no_whitespace : option bool) :
  AddressDeduper.component_equals c1 c2 component no_whitespace
  = (Nat.ltb 0 (size (list_to_set (C := gset string)
                        (compared no_whitespace (expand_address c1 component))
                      ∩ list_to_set (compared no_whitespace (expand_address c2 component)))),
     [ExpandAddress c1 component; ExpandAddress c2 component]).
Proof. unfold compared. by destruct no_whitespace as [[]|]. Qed.

(** C7. [component_equals] asks the Expander for the expansions of both
    values under the given component type, and nothing else; it answers
    true exactly when some string belongs to both lists of expansions, where
    each expansion is first stripped of its whitespace unless
    [no_whitespace] is given as false; stripping keeps exactly the
    characters that are not whitespace, in order. *)
Theorem component_equals_spec (c1 c2 : string) (component : PostalComponent)
    (no_whitespace : option bool) :
  calls (AddressDeduper.component_equals c1 c2 component no_whitespace)
  = [ExpandAddress c1 component; ExpandAddress c2 component]
  ∧ (value (AddressDeduper.component_equals c1 c2 component no_whitespace) = true
     ↔ ∃ e, e ∈ compared no_whitespace (expand_address c1 component)
            ∧ e ∈ compared no_whitespace (expand_address c2 component))
  ∧ compared None = fmap PyStr.remove_whitespace
  ∧ compared (Some true) = fmap PyStr.remove_whitespace
  ∧ compared (Some false) = id
  ∧ ∀ e, chars (PyStr.remove_whitespace e)
         = filter (λ c, PyStr.is_space c = false) (chars e).
Proof.
  rewrite component_equals_eq. cbn [calls value fst snd].
  split; [done|]. split; [|by auto using remove_whitespace_chars].
  rewrite Nat.ltb_lt. split.
  - intros (e & He)%size_pos_elem_of. exists e.
    apply elem_of_intersection in He as [He1 He2].
    by rewrite !elem_of_list_to_set in He1, He2.
  - intros (e & He1 & He2).
    assert (e ∈ (list_to_set (compared no_whitespace (expand_address c1 component)) : gset string)
                ∩ list_to_set (compared no_whitespace (expand_address c2 component))) as He.
    { apply elem_of_intersection. by rewrite !elem_of_list_to_set. }
    destruct (size _) eqn:Hsz; [|lia].
    apply size_empty_inv in Hsz. unfold_leibniz. rewrite Hsz in He. set_solver.
Qed.

Lemma is_address_dupe_present (a1 a2 : Address) (s1 h1 s2 h2 : string) :
  truthy (get a1 STREET) = Some s1 → truthy (get a1 HOUSE_NUMBER) = Some h1 →
  truthy (get a2 STREET) = Some s2 → truthy (get a2 HOUSE_NUMBER) = Some h2 →
  AddressDeduper.is_address_dupe a1 a2
  = (Some (value (AddressDeduper.component_equals s1 s2 ADDRESS_STREET None)
           && value (AddressDeduper.component_equals h1 h2 ADDRESS_HOUSE_NUMBER None)),
     [ExpandAddress s1 ADDRESS_STREET; ExpandAddress s2 ADDRESS_STREET;
      ExpandAddress h1 ADDRESS_HOUSE_NUMBER; ExpandAddress h2 ADDRESS_HOUSE_NUMBER]).
Proof.
  intros Hs1 Hh1 Hs2 Hh2. unfold AddressDeduper.is_address_dupe.
  rewrite Hs1, Hh1, Hs2, Hh2. reflexivity.
Qed.

Lemma is_address_dupe_lacking (a1 a2 : Address) :
  ¬ (has_component a1 STREET ∧ has_component a1 HOUSE_NUMBER
     ∧ has_component a2 STREET ∧ has_component a2 HOUSE_NUMBER) →
  AddressDeduper.is_address_dupe a1 a2 = mret None.
Proof.
  intros Hno. unfold AddressDeduper.is_address_dupe.
  destruct (truthy (get a1 STREET)) as [s1|] eqn:Hs1; [|done].
  destruct (truthy (get a2 STREET)) as [s2|] eqn:Hs2; [|done].
  destruct (truthy (get a1 HOUSE_NUMBER)) as [h1|] eqn:Hh1; [|done].
  destruct (truthy (get a2 HOUSE_NUMBER)) as [h2|] eqn:Hh2; [|done].
  destruct Hno. apply truthy_Some in Hs1. apply truthy_Some in Hs2.
  apply truthy_Some in Hh1. apply truthy_Some in Hh2.
  destruct Hs1, Hs2, Hh1, Hh2.
  unfold has_component. repeat split; eexists; split; eassumption.
Qed.

(** C3. [is_address_dupe] returns [None] (Indeterminate), without any
    comparison, as soon as one of the two records lacks a non-empty street
    or a non-empty house number; when all four values are there it returns
    a boolean, the conjunction of [component_equals] on the streets and of
    [component_equals] on the house numbers. *)
Theorem is_address_dupe_spec (a1 a2 : Address) :
  (¬ (has_component a1 STREET ∧ has_component a1 HOUSE_NUMBER
      ∧ has_component a2 STREET ∧ has_component a2 HOUSE_NUMBER) →
   AddressDeduper.is_address_dupe a1 a2 = (None, []))
  ∧ (∀ s1 h1 s2 h2,
       get a1 STREET = Some s1 → s1 ≠ "" → get a1 HOUSE_NUMBER = Some h1 → h1 ≠ "" →
       get a2 STREET = Some s2 → s2 ≠ "" → get a2 HOUSE_NUMBER = Some h2 → h2 ≠ "" →
       value (AddressDeduper.is_address_dupe a1 a2)
       = Some (value (AddressDeduper.component_equals s1 s2 ADDRESS_STREET None)
               && value (AddressDeduper.component_equals h1 h2 ADDRESS_HOUSE_NUMBER None))).
Proof.
  split; [apply is_address_dupe_lacking|].
  intros s1 h1 s2 h2 Hs1 ? Hh1 ? Hs2 ? Hh2 ?.
  by rewrite (is_address_dupe_present a1 a2 s1 h1 s2 h2) by by apply truthy_has.
Qed.

(** C1. [VenueDeduper.is_dupe] returns [None] (Indeterminate) when the name
    of either record is missing or empty, whatever the other fields, the
    TF-IDF model, the threshold and [with_unit] are; it does so before any
    comparison: no collaborator has been called. *)
Theorem venue_is_dupe_empty_name (a1 a2 : Address) (tfidf : option tfidf_model)
    (name_dupe_threshold : option Q) (with_unit : option bool) :
  ¬ has_component a1 NAME ∨ ¬ has_component a2 NAME →
  value (VenueDeduper.is_dupe a1 a2 tfidf name_dupe_threshold with_unit) = None
  ∧ calls (VenueDeduper.is_dupe a1 a2 tfidf name_dupe_threshold with_unit) = [].
Proof.
  intros Hempty. unfold VenueDeduper.is_dupe.
  destruct Hempty as [Hn%truthy_None | Hn%truthy_None]; rewrite Hn.
  - done.
  - by destruct (truthy (get a1 NAME)).
Qed.

(** C2. When both names are non-empty and the address decision is [None]
    (Indeterminate), [VenueDeduper.is_dupe] returns [None] as well, whatever
    the names are; it returns right after the address decision, so the names
    are not compared. *)
Theorem venue_is_dupe_indeterminate_address (a1 a2 : Address)
    (tfidf : option tfidf_model) (name_dupe_threshold : option Q)
    (with_unit : option bool) :
  has_component a1 NAME → has_component a2 NAME →
  value (AddressDeduper.is_address_dupe a1 a2) = None →
  value (VenueDeduper.is_dupe a1 a2 tfidf name_dupe_threshold with_unit) = None
  ∧ calls (VenueDeduper.is_dupe a1 a2 tfidf name_dupe_threshold with_unit)
    = calls (AddressDeduper.is_address_dupe a1 a2).
Proof.
  intros (n1 & Hn1 & ?) (n2 & Hn2 & ?) Haddr. unfold VenueDeduper.is_dupe.
  rewrite (truthy_has a1 NAME n1), (truthy_has a2 NAME n2) by done.
  destruct (AddressDeduper.is_address_dupe a1 a2) as [same_address log].
  cbn [value fst] in Haddr. subst same_address.
  cbn. by rewrite app_nil_r.
Qed.

End Decisions.

(** ** Blocking keys *)

Lemma product_nil_in {A} (ls : list (list A)) : [] ∈ ls → product ls = [].
Proof.
  induction ls as [|l ls IH]; [by intros ?%not_elem_of_nil|].
  intros [<- | Hin]%elem_of_cons; [done|].
  cbn [product]. rewrite (IH Hin). by induction l.
Qed.

Lemma any_nonempty_false {A} (ls : list (list A)) :
  any_nonempty ls = false → ls = [] ∨ [] ∈ ls.
Proof.
  destruct ls as [|[|x l] ls]; [by left | right; by left | done].
Qed.

Lemma any_nonempty_Permutation {A} (ls ls' : list (list A)) :
  Forall2 (≡ₚ) ls ls' → any_nonempty ls = any_nonempty ls'.
Proof.
  induction 1 as [|l l' ls ls' Hl _ IH]; [done|].
  cbn [any_nonempty existsb]. fold (any_nonempty ls) (any_nonempty ls').
  rewrite IH. f_equal. destruct l, l'; try done.
  - by apply Permutation_nil_cons in Hl.
  - symmetry in Hl. by apply Permutation_nil_cons in Hl.
Qed.

Section Blocking.
Context `{Expander} `{GeoHasher} `{Floats}.

Lemma near_dupe_hashes_eq (cls : DeduperClass) (a : Address) (p : option Z) :
  AddressDeduper.near_dupe_hashes cls a p
  = match get_coordinate a LATITUDE, get_coordinate a LONGITUDE with
    | Some lat, Some lon =>
        if no_emission lat lon (value (cls_component_expansions cls a))
        then ([], calls (cls_component_expansions cls a))
        else
          (AddressDeduper.yield_keys
             (geo_cell p lat lon :: geohash_neighbors (geo_cell p lat lon))
             (value (cls_component_expansions cls a)),
           calls (cls_component_expansions cls a)
           ++ [GeohashEncode lat lon; GeohashNeighbors (geo_cell p lat lon)])
    | _, _ => ([], calls (cls_component_expansions cls a))
    end.
Proof.
  unfold AddressDeduper.near_dupe_hashes, no_emission.
  destruct (cls_component_expansions cls a) as [exps log].
  cbn [mbind Traced_bind value calls fst snd].
  destruct (get_coordinate a LATITUDE) as [lat|];
    [destruct (get_coordinate a LONGITUDE) as [lon|]|];
    [|cbn; by rewrite app_nil_r..].
  destruct (_ || _); cbn; [by rewrite app_nil_r|done].
Qed.

Lemma component_expansions_eq (a : Address) :
  AddressDeduper.component_expansions a
  = match truthy (get a STREET), truthy (get a HOUSE_NUMBER) with
    | Some street, Some house_number =>
        ([expand_address street ADDRESS_STREET;
          expand_address house_number ADDRESS_HOUSE_NUMBER],
         [ExpandAddress street ADDRESS_STREET;
          ExpandAddress house_number ADDRESS_HOUSE_NUMBER])
    | _, _ => ([], [])
    end.
Proof.
  unfold AddressDeduper.component_expansions.
  by destruct (truthy (get a STREET)), (truthy (get a HOUSE_NUMBER)).
Qed.


(** Both comparisons of the guard are false on NaN: with a longitude, some
    expansion and an [isclose] that rejects NaN, a record whose latitude is
    NaN goes on to the GeoHasher. *)
Lemma near_dupe_hashes_nan_passes_guard (cls : DeduperClass) (a : Address)
    (p : option Z) (lon : PyFloat) :
  get_coordinate a LATITUDE = Some NaN → get_coordinate a LONGITUDE = Some lon →
  isclose NaN (Finite 0) = false →
  any_nonempty (value (cls_component_expansions cls a)) = true →
  AddressDeduper.near_dupe_hashes cls a p
  = (AddressDeduper.yield_keys
       (geo_cell p NaN lon :: geohash_neighbors (geo_cell p NaN lon))
       (value (cls_component_expansions cls a)),
     calls (cls_component_expansions cls a)
     ++ [GeohashEncode NaN lon; GeohashNeighbors (geo_cell p NaN lon)]).
Proof.
  intros Hlat Hlon Hclose Hany. rewrite near_dupe_hashes_eq, Hlat, Hlon.
  unfold no_emission. by rewrite Hclose, Hany.
Qed.

(** C10. When the street or the house number of the record is missing or
    empty, [component_expansions] returns the empty tuple without calling
    the Expander, and [AddressDeduper.near_dupe_hashes] yields no key
    without calling any collaborator: no geo-cell is computed.  This holds
    whatever the coordinates are. *)
Theorem near_dupe_hashes_no_street_or_number (a : Address) (p : option Z) :
  ¬ has_component a STREET ∨ ¬ has_component a HOUSE_NUMBER →
  AddressDeduper.component_expansions a = ([], [])
  ∧ AddressDeduper.near_dupe_hashes AddressDeduper.cls a p = ([], []).
Proof.
  intros Hlack.
  assert (AddressDeduper.component_expansions a = ([], [])) as Hexp.
  { rewrite component_expansions_eq.
    destruct Hlack as [Hn%truthy_None | Hn%truthy_None]; rewrite Hn; [done|].
    by destruct (truthy (get a STREET)). }
  split; [done|].
  rewrite near_dupe_hashes_eq. cbn [cls_component_expansions AddressDeduper.cls].
  rewrite Hexp. cbn [value calls fst snd].
  destruct (get_coordinate a LATITUDE) as [lat|]; [|done].
  destruct (get_coordinate a LONGITUDE) as [lon|]; [|done].
  assert (no_emission lat lon [] = true) as ->; [|done].
  unfold no_emission. cbn. by rewrite orb_true_r.
Qed.


End Blocking.

(** ** Order of enumeration *)

Lemma near_dupe_hashes_Permutation (G1 G2 : GeoHasher) (F : Floats)
    (cls1 cls2 : DeduperClass) (a : Address) (p : option Z) :
  (∀ lat lon, @geohash_encode G1 lat lon = @geohash_encode G2 lat lon) →
  (∀ cell, @geohash_neighbors G1 cell ≡ₚ @geohash_neighbors G2 cell) →
  Forall2 (≡ₚ) (value (cls_component_expansions cls1 a))
               (value (cls_component_expansions cls2 a)) →
  value (@AddressDeduper.near_dupe_hashes G1 F cls1 a p)
  ≡ₚ value (@AddressDeduper.near_dupe_hashes G2 F cls2 a p).
Proof.
  intros Henc Hnb Hexp. rewrite !near_dupe_hashes_eq.
  destruct (get_coordinate a LATITUDE) as [lat|]; [|done].
  destruct (get_coordinate a LONGITUDE) as [lon|]; [|done].
  unfold no_emission. rewrite (any_nonempty_Permutation _ _ Hexp).
  destruct (_ || _); [done|]. cbn [value fst].
  assert (@geo_cell G1 p lat lon = @geo_cell G2 p lat lon) as ->
    by (unfold geo_cell; by rewrite Henc).
  apply yield_keys_Permutation; [|done]. by constructor.
Qed.

Lemma component_expansions_Permutation (E1 E2 : Expander) (a : Address) :
  (∀ s component, @expand_address E1 s component ≡ₚ @expand_address E2 s component) →
  Forall2 (≡ₚ) (value (@AddressDeduper.component_expansions E1 a))
               (value (@AddressDeduper.component_expansions E2 a)).
Proof.
  intros Hexp. rewrite !component_expansions_eq.
  destruct (truthy (get a STREET)); [destruct (truthy (get a HOUSE_NUMBER))|];
    cbn [value fst]; repeat constructor; apply Hexp.
Qed.

(** C6. The keys of a record form the same set under any order of
    enumeration.  The loop that yields them gives the same set of keys (the
    same keys with the same multiplicities, in another order) for any
    permutation of the cells and any permutation of each list of expansions;
    and so does [AddressDeduper.near_dupe_hashes] when the Expander and the
    GeoHasher are replaced by ones that enumerate their results in another
    order. *)
Theorem near_dupe_hashes_order_independent :
  (∀ (cells cells' : list string) (exps exps' : list (list string)),
     cells ≡ₚ cells' → Forall2 (≡ₚ) exps exps' →
     AddressDeduper.yield_keys cells exps ≡ₚ AddressDeduper.yield_keys cells' exps'
     ∧ list_to_set (AddressDeduper.yield_keys cells exps)
       =@{gset string} list_to_set (AddressDeduper.yield_keys cells' exps'))
  ∧ (∀ (E1 E2 : Expander) (G1 G2 : GeoHasher) (F : Floats) (a : Address) (p : option Z),
       (∀ s component, @expand_address E1 s component ≡ₚ @expand_address E2 s component) →
       (∀ lat lon, @geohash_encode G1 lat lon = @geohash_encode G2 lat lon) →
       (∀ cell, @geohash_neighbors G1 cell ≡ₚ @geohash_neighbors G2 cell) →
       value (@AddressDeduper.near_dupe_hashes G1 F (@AddressDeduper.cls E1) a p)
       ≡ₚ value (@AddressDeduper.near_dupe_hashes G2 F (@AddressDeduper.cls E2) a p)
       ∧ list_to_set (value (@AddressDeduper.near_dupe_hashes G1 F (@AddressDeduper.cls E1) a p))
         =@{gset string}
         list_to_set (value (@AddressDeduper.near_dupe_hashes G2 F (@AddressDeduper.cls E2) a p))).
Proof.
  split.
  - intros cells cells' exps exps' Hc He.
    pose proof (yield_keys_Permutation _ _ _ _ Hc He) as Hp.
    split; [done|]. by rewrite Hp.
  - intros E1 E2 G1 G2 F a p Hexp Henc Hnb.
    assert (value (@AddressDeduper.near_dupe_hashes G1 F (@AddressDeduper.cls E1) a p)
            ≡ₚ value (@AddressDeduper.near_dupe_hashes G2 F (@AddressDeduper.cls E2) a p)) as Hp.
    { apply near_dupe_hashes_Permutation; [done..|].
      by apply component_expansions_Permutation. }
    split; [done|]. by rewrite Hp.
Qed.

(** ** Where the code departs from its description *)

Section Departures.
Import Sample.

(** C8. [content_tokens] never removes a parenthetical: whatever the class
    says, its result is the tokens of the lower-cased string.  With
    [ignore_parentheticals] set, "Kangaroo Point (NSW)" keeps the token
    "(nsw)", which the description drops. *)
Theorem content_tokens_keeps_parentheticals :
  (∀ cls s, NameDeduper.content_tokens cls s = NameDeduper.tokenize (PyStr.lower s))
  ∧ NameDeduper.ignore_parentheticals ignoring_parentheticals = true
  ∧ NameDeduper.content_tokens ignoring_parentheticals "Kangaroo Point (NSW)"
    = ["kangaroo"; "point"; "(nsw)"]
  ∧ content_tokens_described ignoring_parentheticals "Kangaroo Point (NSW)"
    = ["kangaroo"; "point"].
Proof. repeat split. Qed.

(** C9. Called without a precision, [VenueDeduper.near_dupe_hashes] behaves
    as with precision 7, the default of [AddressDeduper], although the class
    attribute [VenueDeduper.DEFAULT_GEOHASH_PRECISION] is 6: on the sample
    venue the cell of the first key has 7 characters, not 6. *)
Theorem venue_near_dupe_hashes_default_precision :
  (∀ (E : Expander) (G : GeoHasher) (F : Floats) (P : PhoneticEncoder) (a : Address),
     @AddressDeduper.near_dupe_hashes G F (@VenueDeduper.cls E P) a None
     = @AddressDeduper.near_dupe_hashes G F (@VenueDeduper.cls E P) a (Some 7%Z))
  ∧ cls_DEFAULT_GEOHASH_PRECISION VenueDeduper.cls = 6%Z
  ∧ head (value (AddressDeduper.near_dupe_hashes VenueDeduper.cls cafe None))
    = Some "u4pruyd|c|main st|12"
  ∧ head (value (AddressDeduper.near_dupe_hashes VenueDeduper.cls cafe (Some 6%Z)))
    = Some "u4pruy|c|main st|12".
Proof.
  split; [done|]. split; [done|]. split; vm_compute; reflexivity.
Qed.


End Departures.

(** ** Witnesses *)

Section Witnesses.
Import Sample.

Lemma is_address_dupe_spec_witness :
  AddressDeduper.is_address_dupe Sample.streetless Sample.cafe = (None, [])
  ∧ value (AddressDeduper.is_address_dupe Sample.cafe Sample.cafe')
    = Some (value (AddressDeduper.component_equals "Main St" "Main Street" ADDRESS_STREET None)
            && value (AddressDeduper.component_equals "12" "12" ADDRESS_HOUSE_NUMBER None)).
Proof.
  split.
  - apply (proj1 (is_address_dupe_spec Sample.streetless Sample.cafe)).
    intros [(s & Hs & _) _]. vm_compute in Hs. discriminate Hs.
  - apply (proj2 (is_address_dupe_spec Sample.cafe Sample.cafe')); done.
Defined.

Lemma venue_is_dupe_empty_name_witness :
  value (VenueDeduper.is_dupe Sample.nameless Sample.cafe None None None) = None
  ∧ calls (VenueDeduper.is_dupe Sample.nameless Sample.cafe None None None) = [].
Proof.
  apply venue_is_dupe_empty_name. left.
  intros (s & Hs & _). vm_compute in Hs. discriminate Hs.
Defined.

Lemma venue_is_dupe_indeterminate_address_witness :
  value (VenueDeduper.is_dupe Sample.streetless Sample.streetless None None None) = None
  ∧ calls (VenueDeduper.is_dupe Sample.streetless Sample.streetless None None None)
    = calls (AddressDeduper.is_address_dupe Sample.streetless Sample.streetless).
Proof.
  apply venue_is_dupe_indeterminate_address.
  - exists "Cafe Luna". split; [reflexivity | discriminate].
  - exists "Cafe Luna". split; [reflexivity | discriminate].
  - reflexivity.
Defined.


Lemma near_dupe_hashes_no_street_or_number_witness :
  AddressDeduper.component_expansions streetless = ([], [])
  ∧ AddressDeduper.near_dupe_hashes AddressDeduper.cls streetless None = ([], []).
Proof.
  apply near_dupe_hashes_no_street_or_number. left.
  intros (s & Hs & _). vm_compute in Hs. discriminate Hs.
Defined.


Lemma near_dupe_hashes_order_independent_witness :
  (AddressDeduper.yield_keys ["b"; "a"] [["x"; "y"]; ["1"]]
   ≡ₚ AddressDeduper.yield_keys ["a"; "b"] [["y"; "x"]; ["1"]]
   ∧ list_to_set (AddressDeduper.yield_keys ["b"; "a"] [["x"; "y"]; ["1"]])
     =@{gset string} list_to_set (AddressDeduper.yield_keys ["a"; "b"] [["y"; "x"]; ["1"]]))
  ∧ (value (@AddressDeduper.near_dupe_hashes geohasher floats (@AddressDeduper.cls expander) cafe None)
     ≡ₚ value (@AddressDeduper.near_dupe_hashes geohasher_rev floats
                 (@AddressDeduper.cls expander_rev) cafe None)
     ∧ list_to_set (value (@AddressDeduper.near_dupe_hashes geohasher floats
                             (@AddressDeduper.cls expander) cafe None))
       =@{gset string}
       list_to_set (value (@AddressDeduper.near_dupe_hashes geohasher_rev floats
                             (@AddressDeduper.cls expander_rev) cafe None))).
Proof.
  split.
  - apply (proj1 near_dupe_hashes_order_independent).
    + apply perm_swap.
    + constructor; [apply perm_swap | constructor; [reflexivity | constructor]].
  - apply (proj2 near_dupe_hashes_order_independent).
    + intros s component. apply Permutation_rev.
    + reflexivity.
    + intros cell. apply Permutation_rev.
Defined.

End Witnesses.

(** * Further properties *)

(** ** Tokens *)

Lemma append_empty_r (s : string) : String.append s "" = s.
Proof.
  induction s as [|c s IH]; [done|].
  change (String c s +:+ "") with (String c (s +:+ "")). by rewrite IH.
Qed.

Lemma append_assoc' (s1 s2 s3 : string) :
  String.append (String.append s1 s2) s3 = String.append s1 (String.append s2 s3).
Proof.
  induction s1 as [|c s1 IH]; [done|].
  change (String c ((s1 +:+ s2) +:+ s3) = String c (s1 +:+ (s2 +:+ s3))).
  by rewrite IH.
Qed.

Lemma string_of_chars_app (l1 l2 : list ascii) :
  string_of_list_ascii (l1 ++ l2)
  = String.append (string_of_list_ascii l1) (string_of_list_ascii l2).
Proof.
  induction l1 as [|c l1 IH]; [done|].
  change (String c (string_of_list_ascii (l1 ++ l2))
          = String c (string_of_list_ascii l1 +:+ string_of_list_ascii l2)).
  by rewrite IH.
Qed.

Lemma join_empty_cons (x : string) (l : list string) :
  PyStr.join "" (x :: l) = String.append x (PyStr.join "" l).
Proof.
  unfold PyStr.join. destruct l as [|y l]; cbn [String.concat].
  - by rewrite append_empty_r.
  - done.
Qed.

Lemma join_empty_flush (cur : list ascii) (acc : list string) :
  PyStr.join "" (PyStr.flush cur acc)
  = String.append (string_of_list_ascii (rev cur)) (PyStr.join "" acc).
Proof.
  destruct cur as [|c cur]; [done|].
  cbn [PyStr.flush]. by rewrite join_empty_cons.
Qed.

Lemma join_empty_split_go (s : string) (cur : list ascii) :
  PyStr.join "" (PyStr.split_go s cur)
  = String.append (string_of_list_ascii (rev cur)) (PyStr.remove_whitespace s).
Proof.
  revert cur. induction s as [|c s IH]; intros cur;
    cbn [PyStr.split_go PyStr.remove_whitespace].
  - by rewrite join_empty_flush.
  - destruct (PyStr.is_space c).
    + rewrite join_empty_flush, IH. done.
    + rewrite IH. cbn [rev]. by rewrite string_of_chars_app, append_assoc'.
Qed.

Lemma chars_string_of (l : list ascii) : chars (string_of_list_ascii l) = l.
Proof. apply list_ascii_of_string_of_list_ascii. Qed.

Lemma split_go_tokens (s : string) (cur : list ascii) :
  clean cur →
  Forall (λ t, t ≠ "" ∧ clean (chars t)) (PyStr.split_go s cur).
Proof.
  assert (Hflush : ∀ cur acc, clean cur →
            Forall (λ t, t ≠ "" ∧ clean (chars t)) acc →
            Forall (λ t, t ≠ "" ∧ clean (chars t)) (PyStr.flush cur acc)).
  { intros [|c cur'] acc Hc Hacc; [done|]. cbn [PyStr.flush].
    constructor; [|done]. split.
    - intros Heq. apply (f_equal chars) in Heq. rewrite chars_string_of in Heq.
      cbn [rev] in Heq. by destruct (rev cur').
    - rewrite chars_string_of. unfold clean. by apply Forall_rev. }
  revert cur. induction s as [|c s IH]; intros cur Hcur; cbn [PyStr.split_go].
  - by apply Hflush.
  - destruct (PyStr.is_space c) eqn:Hc.
    + apply Hflush; [done|]. apply IH. constructor.
    + apply IH. by constructor.
Qed.

Lemma lower_char_idemp (c : ascii) :
  PyStr.lower_char (PyStr.lower_char c) = PyStr.lower_char c.
Proof. by destruct c as [[] [] [] [] [] [] [] []]. Qed.

Lemma lower_idemp (s : string) : PyStr.lower (PyStr.lower s) = PyStr.lower s.
Proof.
  induction s as [|c s IH]; [done|].
  cbn [PyStr.lower]. by rewrite lower_char_idemp, IH.
Qed.

(** X1. The tokens of a string are non-empty and free of whitespace; joined
    without a separator they give the string with all its whitespace removed;
    and there is no token exactly when the string is empty or all
    whitespace. *)
Theorem tokenize_spec (s : string) :
  Forall (λ t, t ≠ "" ∧ Forall (λ c, PyStr.is_space c = false) (chars t))
         (NameDeduper.tokenize s)
  ∧ PyStr.join "" (NameDeduper.tokenize s) = PyStr.remove_whitespace s
  ∧ (NameDeduper.tokenize s = [] ↔ PyStr.remove_whitespace s = "").
Proof.
  assert (Forall (λ t, t ≠ "" ∧ clean (chars t)) (NameDeduper.tokenize s)) as Htok
    by (apply split_go_tokens; constructor).
  assert (PyStr.join "" (NameDeduper.tokenize s) = PyStr.remove_whitespace s) as Hjoin
    by (unfold NameDeduper.tokenize, PyStr.split; by rewrite join_empty_split_go).
  split; [done|]. split; [done|]. rewrite <- Hjoin. split; [by intros ->|].
  destruct (NameDeduper.tokenize s) as [|t ts]; [done|].
  rewrite join_empty_cons. apply Forall_cons in Htok as [[Hne _] _].
  by destruct t.
Qed.

(** X2. [content_tokens] does not depend on the case of its input: a string
    and its lower-cased form have the same tokens, and so do two strings that
    are equal up to case. *)
Theorem content_tokens_case_insensitive (cls : NameDeduper.Config) (s s' : string) :
  NameDeduper.content_tokens cls (PyStr.lower s) = NameDeduper.content_tokens cls s
  ∧ (PyStr.lower s = PyStr.lower s' →
     NameDeduper.content_tokens cls s = NameDeduper.content_tokens cls s').
Proof.
  unfold NameDeduper.content_tokens. split.
  - by rewrite lower_idemp.
  - by intros ->.
Qed.

Section Ideographs.
Context `{JaccardScorer}.

(** X3. [compare_ideographs] returns 1.0 exactly on the strings that are
    equal once lower-cased and stripped of whitespace, whatever the Jaccard
    scorer; on any other pair it returns the Jaccard similarity of the two
    token lists.  In particular it returns 1.0 on a string and itself, the
    empty string included. *)
Theorem compare_ideographs_spec (cls : NameDeduper.Config) (s1 s2 : string) :
  (PyStr.remove_whitespace (PyStr.lower s1) = PyStr.remove_whitespace (PyStr.lower s2) →
   NameDeduper.compare_ideographs cls s1 s2 = 1%Q)
  ∧ (PyStr.remove_whitespace (PyStr.lower s1) ≠ PyStr.remove_whitespace (PyStr.lower s2) →
     NameDeduper.compare_ideographs cls s1 s2
     = jaccard_similarity (NameDeduper.tokenize (PyStr.lower s1))
                          (NameDeduper.tokenize (PyStr.lower s2)))
  ∧ NameDeduper.compare_ideographs cls s1 s1 = 1%Q.
Proof.
  unfold NameDeduper.compare_ideographs, NameDeduper.content_tokens.
  unfold NameDeduper.tokenize, PyStr.split. rewrite !join_empty_split_go.
  change (string_of_list_ascii (rev [])) with "".
  repeat split.
  - intros Heq. by rewrite decide_True.
  - intros Hne. by rewrite decide_False.
  - by rewrite decide_True.
Qed.

End Ideographs.

(** ** Pairwise decisions *)

Lemma value_bind {A B} (m : Traced A) (f : A → Traced B) :
  value (m ≫= f) = value (f (value m)).
Proof. reflexivity. Qed.

Lemma calls_bind {A B} (m : Traced A) (f : A → Traced B) :
  calls (m ≫= f) = calls m ++ calls (f (value m)).
Proof. reflexivity. Qed.

Lemma traced_eta {A} (m : Traced A) : m = (value m, calls m).
Proof. by destruct m. Qed.

Section MoreDecisions.
Context `{Expander} `{GeoHasher} `{Floats} `{PhoneticEncoder} `{SimilarityScorer}.

Lemma component_equals_value_sym (c1 c2 : string) (component : PostalComponent)
    (no_whitespace : option bool) :
  value (AddressDeduper.component_equals c1 c2 component no_whitespace)
  = value (AddressDeduper.component_equals c2 c1 component no_whitespace).
Proof.
  rewrite !component_equals_eq. cbn [value fst].
  by rewrite (comm_L (∩)).
Qed.

(** X4. [component_equals] is symmetric, and a value equals itself exactly
    when the Expander gives it at least one expansion. *)
Theorem component_equals_sym_refl (c1 c2 : string) (component : PostalComponent)
    (no_whitespace : option bool) :
  value (AddressDeduper.component_equals c1 c2 component no_whitespace)
  = value (AddressDeduper.component_equals c2 c1 component no_whitespace)
  ∧ (value (AddressDeduper.component_equals c1 c1 component no_whitespace) = true
     ↔ expand_address c1 component ≠ []).
Proof.
  split; [apply component_equals_value_sym|].
  rewrite component_equals_eq. cbn [value fst].
  rewrite (idemp_L (∩)), Nat.ltb_lt. split.
  - intros (e & He)%size_pos_elem_of Hnil.
    rewrite Hnil in He. unfold compared in He.
    destruct (default true no_whitespace); set_solver.
  - intros Hne. destruct (expand_address c1 component) as [|e l] eqn:He; [done|].
    destruct (size _) eqn:Hsz; [|lia].
    apply size_empty_inv in Hsz. unfold_leibniz.
    unfold compared in Hsz. destruct (default true no_whitespace); set_solver.
Qed.

Lemma is_address_dupe_value_sym (a1 a2 : Address) :
  value (AddressDeduper.is_address_dupe a1 a2)
  = value (AddressDeduper.is_address_dupe a2 a1).
Proof.
  unfold AddressDeduper.is_address_dupe.
  destruct (truthy (get a1 STREET)) as [s1|], (truthy (get a2 STREET)) as [s2|],
    (truthy (get a1 HOUSE_NUMBER)) as [h1|], (truthy (get a2 HOUSE_NUMBER)) as [h2|];
    try done.
  rewrite !value_bind. cbn [value mret Traced_ret fst].
  by rewrite (component_equals_value_sym s1 s2), (component_equals_value_sym h1 h2).
Qed.

Lemma sub_building_loop_true (fields : list (AddressComponents * PostalComponent))
    (a1 a2 : Address) :
  value (AddressDeduper.is_sub_building_dupe_loop fields a1 a2) = true
  ↔ Forall (λ f, field_passes a1 a2 f.1 f.2) fields.
Proof.
  induction fields as [|[key component] fields IH].
  - split; [constructor | done].
  - rewrite Forall_cons. cbn [AddressDeduper.is_sub_building_dupe_loop fst snd].
    unfold field_passes at 1. cbn [fst snd].
    destruct (truthy (get a1 key)) as [f1|], (truthy (get a2 key)) as [f2|].
    + rewrite value_bind.
      destruct (value (AddressDeduper.component_equals f1 f2 component None));
        cbn [negb].
      * rewrite IH. split; [done | by intros [_ ?]].
      * split; [done | by intros [? _]].
    + split; [done | by intros [? _]].
    + split; [done | by intros [? _]].
    + rewrite IH. split; [done | by intros [_ ?]].
Qed.

Lemma sub_building_loop_value_sym (fields : list (AddressComponents * PostalComponent))
    (a1 a2 : Address) :
  value (AddressDeduper.is_sub_building_dupe_loop fields a1 a2)
  = value (AddressDeduper.is_sub_building_dupe_loop fields a2 a1).
Proof.
  induction fields as [|[key component] fields IH]; [done|].
  cbn [AddressDeduper.is_sub_building_dupe_loop].
  destruct (truthy (get a1 key)) as [f1|], (truthy (get a2 key)) as [f2|]; try done.
  rewrite !value_bind, (component_equals_value_sym f1 f2).
  by destruct (value (AddressDeduper.component_equals f2 f1 component None)).
Qed.

(** X5. [is_sub_building_dupe] is true exactly when the unit passes and the
    floor passes, a field passing when both records have it with
    component-equal values or when neither record has it. *)
Theorem is_sub_building_dupe_true_iff (a1 a2 : Address) :
  value (AddressDeduper.is_sub_building_dupe a1 a2) = true
  ↔ field_passes a1 a2 UNIT ADDRESS_UNIT ∧ field_passes a1 a2 FLOOR ADDRESS_LEVEL.
Proof.
  unfold AddressDeduper.is_sub_building_dupe.
  rewrite sub_building_loop_true, !Forall_cons, Forall_nil. cbn [fst snd]. tauto.
Qed.

(** X6. [is_sub_building_dupe] is false as soon as exactly one of the two
    records has a unit, or exactly one has a floor. *)
Theorem is_sub_building_dupe_asymmetric (a1 a2 : Address) (key : AddressComponents) :
  key = UNIT ∨ key = FLOOR →
  (has_component a1 key ∧ ¬ has_component a2 key)
  ∨ (¬ has_component a1 key ∧ has_component a2 key) →
  value (AddressDeduper.is_sub_building_dupe a1 a2) = false.
Proof.
  intros Hkey Hasym.
  destruct (value (AddressDeduper.is_sub_building_dupe a1 a2)) eqn:Hv; [|done].
  apply sub_building_loop_true in Hv.
  rewrite !Forall_cons in Hv. cbn [fst snd] in Hv. destruct Hv as (Hu & Hf & _).
  assert (∃ component, field_passes a1 a2 key component) as [component Hp]
    by (destruct Hkey as [-> | ->]; eauto).
  unfold field_passes in Hp.
  destruct Hasym as [[(s & Hs & Hne) Hn%truthy_None] | [Hn%truthy_None (s & Hs & Hne)]];
    rewrite Hn in Hp; rewrite (truthy_has _ key s) in Hp by done; done.
Qed.

(** X7. When neither record has a unit or a floor, [is_sub_building_dupe] is
    true and compares nothing. *)
Theorem is_sub_building_dupe_no_fields (a1 a2 : Address) :
  ¬ has_component a1 UNIT → ¬ has_component a2 UNIT →
  ¬ has_component a1 FLOOR → ¬ has_component a2 FLOOR →
  AddressDeduper.is_sub_building_dupe a1 a2 = (true, []).
Proof.
  intros Hu1%truthy_None Hu2%truthy_None Hf1%truthy_None Hf2%truthy_None.
  unfold AddressDeduper.is_sub_building_dupe.
  cbn [AddressDeduper.is_sub_building_dupe_loop].
  by rewrite Hu1, Hu2, Hf1, Hf2.
Qed.

(** X8. The address decision and the sub-building decision do not depend on
    the order of the two records. *)
Theorem address_decisions_symmetric (a1 a2 : Address) :
  value (AddressDeduper.is_address_dupe a1 a2)
  = value (AddressDeduper.is_address_dupe a2 a1)
  ∧ value (AddressDeduper.is_sub_building_dupe a1 a2)
    = value (AddressDeduper.is_sub_building_dupe a2 a1).
Proof.
  split; [apply is_address_dupe_value_sym | apply sub_building_loop_value_sym].
Qed.

End MoreDecisions.

(** ** Composing the decisions *)

Section Composition.
Context `{Expander} `{GeoHasher} `{Floats} `{PhoneticEncoder} `{SimilarityScorer}.

(** X9. [AddressDeduper.is_dupe] is the address decision itself, reached
    without looking at unit or floor, when [with_unit] is false or when the
    address decision is not [True]: [None] and [False] pass through
    unchanged. *)
Theorem address_is_dupe_short_circuit (a1 a2 : Address) (with_unit : option bool) :
  with_unit = Some false ∨ value (AddressDeduper.is_address_dupe a1 a2) ≠ Some true →
  AddressDeduper.is_dupe a1 a2 with_unit = AddressDeduper.is_address_dupe a1 a2.
Proof.
  intros Hcase. unfold AddressDeduper.is_dupe.
  destruct (AddressDeduper.is_address_dupe a1 a2) as [[[]|] log];
    cbn [value fst] in Hcase; cbn; rewrite ?app_nil_r; try done.
  destruct Hcase as [-> | Hne]; [|done]. cbn. by rewrite app_nil_r.
Qed.

Lemma address_is_dupe_value (a1 a2 : Address) (with_unit : option bool) :
  value (AddressDeduper.is_dupe a1 a2 with_unit)
  = match value (AddressDeduper.is_address_dupe a1 a2) with
    | Some true =>
        Some (negb (default true with_unit)
              || value (AddressDeduper.is_sub_building_dupe a1 a2))
    | v => v
    end.
Proof.
  unfold AddressDeduper.is_dupe. rewrite value_bind.
  destruct (value (AddressDeduper.is_address_dupe a1 a2)) as [[]|]; cbn [py_not]; [|done..].
  by destruct with_unit as [[]|].
Qed.

(** X10. [AddressDeduper.is_dupe] answers [True] exactly when the address
    decision is [True] and, unless [with_unit] is false, the sub-building
    decision is true; it answers [None] exactly when the address decision is
    [None]; and its answer does not depend on the order of the records. *)
Theorem address_is_dupe_spec (a1 a2 : Address) (with_unit : option bool) :
  (value (AddressDeduper.is_dupe a1 a2 with_unit) = Some true
   ↔ value (AddressDeduper.is_address_dupe a1 a2) = Some true
     ∧ (with_unit = Some false
        ∨ value (AddressDeduper.is_sub_building_dupe a1 a2) = true))
  ∧ (value (AddressDeduper.is_dupe a1 a2 with_unit) = None
     ↔ value (AddressDeduper.is_address_dupe a1 a2) = None)
  ∧ value (AddressDeduper.is_dupe a1 a2 with_unit)
    = value (AddressDeduper.is_dupe a2 a1 with_unit).
Proof.
  rewrite !address_is_dupe_value.
  rewrite <- (is_address_dupe_value_sym a1 a2).
  unfold AddressDeduper.is_sub_building_dupe.
  rewrite <- (sub_building_loop_value_sym _ a1 a2).
  destruct (value (AddressDeduper.is_address_dupe a1 a2)) as [[]|];
    [|split; [split; [done | by intros [? _]] | done]..].
  destruct with_unit as [[]|], (value (AddressDeduper.is_sub_building_dupe_loop _ a1 a2));
    cbn [default negb orb]; (split; [|done]); split; try done; auto;
    intros [_ [?|?]]; congruence.
Qed.

(** The value of [VenueDeduper.is_dupe] on records that both have a name. *)
Lemma venue_is_dupe_value (a1 a2 : Address) (n1 n2 : string)
    (tfidf : option tfidf_model) (name_dupe_threshold : option Q)
    (with_unit : option bool) :
  truthy (get a1 NAME) = Some n1 → truthy (get a2 NAME) = Some n2 →
  value (VenueDeduper.is_dupe a1 a2 tfidf name_dupe_threshold with_unit)
  = match value (AddressDeduper.is_address_dupe a1 a2) with
    | Some true =>
        if default false with_unit
           && negb (value (AddressDeduper.is_sub_building_dupe a1 a2))
        then Some false
        else Some (names_match n1 n2 tfidf name_dupe_threshold)
    | v => v
    end.
Proof.
  intros Hn1 Hn2. unfold VenueDeduper.is_dupe, names_match. rewrite Hn1, Hn2.
  cbv zeta. rewrite value_bind.
  destruct (value (AddressDeduper.is_address_dupe a1 a2)) as [[]|]; cbn [py_not];
    [|reflexivity..].
  rewrite value_bind.
  assert (value (if default false with_unit
                 then AddressDeduper.is_sub_building_dupe a1 a2 else mret true)
          = negb (default false with_unit
                  && negb (value (AddressDeduper.is_sub_building_dupe a1 a2)))) as ->.
  { destruct (default false with_unit); [|reflexivity].
    by destruct (value (AddressDeduper.is_sub_building_dupe a1 a2)). }
  destruct (default false with_unit
            && negb (value (AddressDeduper.is_sub_building_dupe a1 a2)));
    cbn [negb]; [reflexivity|].
  rewrite !value_bind. unfold VenueDeduper.is_exact_name_dupe.
  destruct (value (AddressDeduper.component_equals n1 n2 ADDRESS_NAME None));
    destruct tfidf; reflexivity.
Qed.

Lemma is_address_dupe_none_iff (a1 a2 : Address) :
  value (AddressDeduper.is_address_dupe a1 a2) = None
  ↔ ¬ (has_component a1 STREET ∧ has_component a1 HOUSE_NUMBER
       ∧ has_component a2 STREET ∧ has_component a2 HOUSE_NUMBER).
Proof.
  split.
  - intros Hv ((s1 & ? & ?) & (h1 & ? & ?) & (s2 & ? & ?) & (h2 & ? & ?)).
    rewrite (is_address_dupe_present a1 a2 s1 h1 s2 h2) in Hv by by apply truthy_has.
    done.
  - intros Hl. by rewrite is_address_dupe_lacking.
Qed.

Lemma venue_is_dupe_no_name (a1 a2 : Address) (tfidf : option tfidf_model)
    (name_dupe_threshold : option Q) (with_unit : option bool) :
  truthy (get a1 NAME) = None ∨ truthy (get a2 NAME) = None →
  VenueDeduper.is_dupe a1 a2 tfidf name_dupe_threshold with_unit = (None, []).
Proof.
  unfold VenueDeduper.is_dupe. intros [-> | ->]; [done|].
  by destruct (truthy (get a1 NAME)).
Qed.

(** X11. [VenueDeduper.is_dupe] is [None] (Indeterminate) exactly when one of
    the two records lacks a non-empty name, street or house number; with all
    six values present it always answers [True] or [False]. *)
Theorem venue_is_dupe_none_iff (a1 a2 : Address) (tfidf : option tfidf_model)
    (name_dupe_threshold : option Q) (with_unit : option bool) :
  value (VenueDeduper.is_dupe a1 a2 tfidf name_dupe_threshold with_unit) = None
  ↔ ¬ (has_component a1 NAME ∧ has_component a2 NAME
       ∧ has_component a1 STREET ∧ has_component a1 HOUSE_NUMBER
       ∧ has_component a2 STREET ∧ has_component a2 HOUSE_NUMBER).
Proof.
  destruct (truthy (get a1 NAME)) as [n1|] eqn:Hn1;
    [destruct (truthy (get a2 NAME)) as [n2|] eqn:Hn2|].
  - rewrite (venue_is_dupe_value a1 a2 n1 n2) by done.
    apply truthy_Some in Hn1, Hn2.
    assert (has_component a1 NAME) by by exists n1.
    assert (has_component a2 NAME) by by exists n2.
    pose proof (is_address_dupe_none_iff a1 a2) as Hiff.
    destruct (value (AddressDeduper.is_address_dupe a1 a2)) as [[]|].
    + assert (∀ v : bool, Some v = None
                ↔ ¬ (has_component a1 NAME ∧ has_component a2 NAME
                     ∧ has_component a1 STREET ∧ has_component a1 HOUSE_NUMBER
                     ∧ has_component a2 STREET ∧ has_component a2 HOUSE_NUMBER)) as Hsome.
      { intros v. split; [done|]. intros Hno.
        assert (Some true = None) as Habs; [|done].
        apply Hiff. intros HP. apply Hno. tauto. }
      destruct (_ && _); apply Hsome.
    + split; [done|]. intros Hno.
      assert (Some false = None) as Habs; [|done].
      apply Hiff. intros HP. apply Hno. tauto.
    + split; [|done]. intros _ (_ & _ & Hall). by apply Hiff in Hall.
  - rewrite venue_is_dupe_no_name by auto. split; [|done].
    intros _ (_ & Hn & _). by apply truthy_None in Hn2.
  - rewrite venue_is_dupe_no_name by auto. split; [|done].
    intros _ (Hn & _). by apply truthy_None in Hn1.
Qed.

(** X12. When both names are present and the address decision is not
    [True], [VenueDeduper.is_dupe] is the address decision itself: a [False]
    address gives [False] whatever the names are, and neither the unit, the
    floor nor the names are compared. *)
Theorem venue_is_dupe_address_decides (a1 a2 : Address) (tfidf : option tfidf_model)
    (name_dupe_threshold : option Q) (with_unit : option bool) :
  has_component a1 NAME → has_component a2 NAME →
  value (AddressDeduper.is_address_dupe a1 a2) ≠ Some true →
  VenueDeduper.is_dupe a1 a2 tfidf name_dupe_threshold with_unit
  = AddressDeduper.is_address_dupe a1 a2.
Proof.
  intros (n1 & Hn1 & ?) (n2 & Hn2 & ?) Haddr. unfold VenueDeduper.is_dupe.
  rewrite (truthy_has a1 NAME n1), (truthy_has a2 NAME n2) by done.
  destruct (AddressDeduper.is_address_dupe a1 a2) as [[[]|] log];
    cbn [value fst] in Haddr; [done|..]; cbn; by rewrite app_nil_r.
Qed.

(** X13. With [with_unit] set, a [True] address decision and a false
    sub-building decision give [False]; the names are not compared, so no
    name, however equal, makes up for a differing unit or floor. *)
Theorem venue_is_dupe_unit_mismatch (a1 a2 : Address) (tfidf : option tfidf_model)
    (name_dupe_threshold : option Q) :
  has_component a1 NAME → has_component a2 NAME →
  value (AddressDeduper.is_address_dupe a1 a2) = Some true →
  value (AddressDeduper.is_sub_building_dupe a1 a2) = false →
  value (VenueDeduper.is_dupe a1 a2 tfidf name_dupe_threshold (Some true)) = Some false
  ∧ calls (VenueDeduper.is_dupe a1 a2 tfidf name_dupe_threshold (Some true))
    = calls (AddressDeduper.is_address_dupe a1 a2)
      ++ calls (AddressDeduper.is_sub_building_dupe a1 a2).
Proof.
  intros (n1 & Hn1 & ?) (n2 & Hn2 & ?) Haddr Hsub. unfold VenueDeduper.is_dupe.
  rewrite (truthy_has a1 NAME n1), (truthy_has a2 NAME n2) by done.
  destruct (AddressDeduper.is_address_dupe a1 a2) as [sa la].
  destruct (AddressDeduper.is_sub_building_dupe a1 a2) as [su lu].
  cbn [value fst] in Haddr, Hsub. subst sa su.
  cbn. by rewrite app_nil_r.
Qed.

(** X14. Once the address decision is [True] and the sub-building test is
    off or passed, the answer is the decision on the names: [True] when the
    names are exact dupes, otherwise, when a TF-IDF model is given, whether
    the soft TF-IDF similarity of the content tokens reaches the threshold
    (0.9 by default), and [False] without a model. *)
Theorem venue_is_dupe_names_decide (a1 a2 : Address) (n1 n2 : string)
    (tfidf : option tfidf_model) (name_dupe_threshold : option Q)
    (with_unit : option bool) :
  get a1 NAME = Some n1 → n1 ≠ "" → get a2 NAME = Some n2 → n2 ≠ "" →
  value (AddressDeduper.is_address_dupe a1 a2) = Some true →
  with_unit ≠ Some true ∨ value (AddressDeduper.is_sub_building_dupe a1 a2) = true →
  value (VenueDeduper.is_dupe a1 a2 tfidf name_dupe_threshold with_unit)
  = Some (value (VenueDeduper.is_exact_name_dupe n1 n2)
          || match tfidf with
             | Some model =>
                 Qle_bool (default NameDeduper.default_dupe_threshold name_dupe_threshold)
                   (value (NameDeduper.compare_in_memory
                             (NameDeduper.content_tokens NameDeduper.base n1)
                             (NameDeduper.content_tokens NameDeduper.base n2) model))
             | None => false
             end).
Proof.
  intros Hn1 ? Hn2 ? Haddr Hunit.
  rewrite (venue_is_dupe_value a1 a2 n1 n2) by by apply truthy_has.
  rewrite Haddr.
  assert (default false with_unit
          && negb (value (AddressDeduper.is_sub_building_dupe a1 a2)) = false) as ->; [|done].
  destruct Hunit as [Hwu | ->]; [|by rewrite andb_false_r].
  by destruct with_unit as [[]|].
Qed.

(** X15. When the names are exact dupes the TF-IDF model and the threshold
    play no part: the decision and the collaborator calls are those of a call
    without model. *)
Theorem venue_is_dupe_exact_name (a1 a2 : Address) (n1 n2 : string)
    (tfidf : option tfidf_model) (name_dupe_threshold : option Q)
    (with_unit : option bool) :
  get a1 NAME = Some n1 → n1 ≠ "" → get a2 NAME = Some n2 → n2 ≠ "" →
  value (VenueDeduper.is_exact_name_dupe n1 n2) = true →
  VenueDeduper.is_dupe a1 a2 tfidf name_dupe_threshold with_unit
  = VenueDeduper.is_dupe a1 a2 None None with_unit.
Proof.
  intros Hn1 ? Hn2 ? Hexact. unfold VenueDeduper.is_dupe.
  rewrite (truthy_has a1 NAME n1), (truthy_has a2 NAME n2) by done.
  destruct (VenueDeduper.is_exact_name_dupe n1 n2) as [e le].
  cbn [value fst] in Hexact. subst e.
  destruct (AddressDeduper.is_address_dupe a1 a2) as [[[]|] la]; [|done..].
  destruct with_unit as [[]|]; cbn [default];
    [destruct (AddressDeduper.is_sub_building_dupe a1 a2) as [[] lu]|..];
    by destruct tfidf.
Qed.

(** X16. [VenueDeduper.is_dupe] reads only the name, the street and the
    house number of each record unless [with_unit] is set: records that agree
    on these three fields get the same decision with the same collaborator
    calls, whatever their unit, floor and coordinates. *)
Theorem venue_is_dupe_reads (a1 a2 a1' a2' : Address) (tfidf : option tfidf_model)
    (name_dupe_threshold : option Q) (with_unit : option bool) :
  (∀ key, key ∈ [NAME; STREET; HOUSE_NUMBER] → get a1 key = get a1' key) →
  (∀ key, key ∈ [NAME; STREET; HOUSE_NUMBER] → get a2 key = get a2' key) →
  with_unit ≠ Some true →
  VenueDeduper.is_dupe a1 a2 tfidf name_dupe_threshold with_unit
  = VenueDeduper.is_dupe a1' a2' tfidf name_dupe_threshold with_unit.
Proof.
  intros Ha1 Ha2 Hwu.
  unfold VenueDeduper.is_dupe, AddressDeduper.is_address_dupe.
  rewrite !Ha1, !Ha2 by set_solver.
  by destruct with_unit as [[]|].
Qed.

(** X17. When the soft TF-IDF similarity is symmetric, so is
    [VenueDeduper.is_dupe]: the decision does not depend on the order of the
    two records. *)
Theorem venue_is_dupe_symmetric (a1 a2 : Address) (tfidf : option tfidf_model)
    (name_dupe_threshold : option Q) (with_unit : option bool) :
  (∀ v1 v2, soft_tfidf_similarity v1 v2 = soft_tfidf_similarity v2 v1) →
  value (VenueDeduper.is_dupe a1 a2 tfidf name_dupe_threshold with_unit)
  = value (VenueDeduper.is_dupe a2 a1 tfidf name_dupe_threshold with_unit).
Proof.
  intros Hsym.
  destruct (truthy (get a1 NAME)) as [n1|] eqn:Hn1;
    [destruct (truthy (get a2 NAME)) as [n2|] eqn:Hn2|].
  - rewrite (venue_is_dupe_value a1 a2 n1 n2), (venue_is_dupe_value a2 a1 n2 n1) by done.
    rewrite <- (is_address_dupe_value_sym a1 a2).
    unfold AddressDeduper.is_sub_building_dupe.
    rewrite <- (sub_building_loop_value_sym _ a1 a2).
    assert (names_match n1 n2 tfidf name_dupe_threshold
            = names_match n2 n1 tfidf name_dupe_threshold) as ->; [|done].
    unfold names_match. rewrite (component_equals_value_sym n1 n2).
    destruct tfidf as [model|]; [|done].
    unfold NameDeduper.compare_in_memory. rewrite !value_bind.
    cbn [value traced fst]. by rewrite Hsym.
  - by rewrite !venue_is_dupe_no_name by auto.
  - by rewrite !venue_is_dupe_no_name by auto.
Qed.

End Composition.

(** ** Cells and keys *)

Lemma take_chars_chars (n : nat) (s : string) :
  chars (PyStr.take_chars n s) = take n (chars s).
Proof.
  unfold PyStr.take_chars. revert s.
  induction n as [|n IH]; intros [|c s]; cbn; try done.
  f_equal. apply IH.
Qed.

Lemma length_chars (s : string) : length (chars s) = String.length s.
Proof. induction s as [|c s IH]; [done|]. cbn. by rewrite <- IH. Qed.

Lemma chars_inj (s1 s2 : string) : chars s1 = chars s2 → s1 = s2.
Proof.
  intros Heq. apply (f_equal string_of_list_ascii) in Heq.
  unfold chars in Heq. by rewrite !string_of_list_ascii_of_string in Heq.
Qed.

Lemma slice_to_chars (n : Z) (s : string) :
  (0 ≤ n)%Z → chars (PyStr.slice_to n s) = take (Z.to_nat n) (chars s).
Proof.
  intros Hn. unfold PyStr.slice_to.
  destruct (Z.leb_spec 0 n); [|lia]. apply take_chars_chars.
Qed.

(** X18. Cutting a cell to a precision [p >= 0] keeps its first [p]
    characters (all of them when it is shorter), and cutting to a coarser
    precision commutes with cutting to a finer one first: the cell of a
    coordinate at precision [p] is the cell at any precision [q >= p] cut to
    [p]. *)
Theorem geo_cell_precision `{GeoHasher} (p q : Z) (lat lon : PyFloat) :
  (0 ≤ p ≤ q)%Z →
  chars (geo_cell (Some p) lat lon) = take (Z.to_nat p) (chars (geohash_encode lat lon))
  ∧ String.length (geo_cell (Some p) lat lon)
    = Nat.min (Z.to_nat p) (String.length (geohash_encode lat lon))
  ∧ geo_cell (Some p) lat lon = PyStr.slice_to p (geo_cell (Some q) lat lon).
Proof.
  intros [Hp Hpq]. unfold geo_cell.
  change (default AddressDeduper.DEFAULT_GEOHASH_PRECISION (Some p)) with p.
  change (default AddressDeduper.DEFAULT_GEOHASH_PRECISION (Some q)) with q.
  assert (chars (PyStr.slice_to p (geohash_encode lat lon))
          = take (Z.to_nat p) (chars (geohash_encode lat lon))) as Hc
    by by apply slice_to_chars.
  split; [done|]. split.
  - by rewrite <- !length_chars, Hc, length_take.
  - apply chars_inj. rewrite Hc, !slice_to_chars by lia.
    rewrite take_take. f_equal. lia.
Qed.

Lemma product_elem {A} (ls : list (list A)) (t : list A) :
  t ∈ product ls ↔ Forall2 (λ x l, x ∈ l) t ls.
Proof.
  revert t. induction ls as [|l ls IH]; intros t; cbn [product].
  - rewrite list_elem_of_singleton. split; [by intros -> | by intros ->%Forall2_nil_inv_r].
  - rewrite list_elem_of_bind. split.
    + intros (x & Ht & Hx). rewrite bind_cons_each in Ht.
      apply list_elem_of_fmap in Ht as (t' & -> & Ht').
      constructor; [done | by apply IH].
    + intros (x & t' & Hx & Ht' & ->)%Forall2_cons_inv_r.
      exists x. split; [|done]. rewrite bind_cons_each.
      apply list_elem_of_fmap. exists t'. split; [done | by apply IH].
Qed.

Lemma yield_keys_elem (cells : list string) (exps : list (list string)) (k : string) :
  k ∈ AddressDeduper.yield_keys cells exps
  ↔ ∃ c t, c ∈ cells ∧ Forall2 (λ x l, x ∈ l) t exps ∧ k = PyStr.join "|" (c :: t).
Proof.
  unfold AddressDeduper.yield_keys. rewrite list_elem_of_fmap. split.
  - intros (t & -> & Ht). apply product_elem in Ht.
    apply Forall2_cons_inv_r in Ht as (c & t' & Hc & Ht' & ->). eauto.
  - intros (c & t & Hc & Ht & ->). exists (c :: t). split; [done|].
    apply product_elem. by constructor.
Qed.

Section Keys.
Context `{Expander} `{GeoHasher} `{Floats} `{PhoneticEncoder}.

Lemma no_emission_locatable (a : Address) (lat lon : Q) (exps : list (list string)) :
  locatable a lat lon →
  no_emission (Finite lat) (Finite lon) exps = negb (any_nonempty exps).
Proof.
  intros (_ & _ & Hlo & Hhi & Hs). unfold no_emission. rewrite Hs.
  change (Float.geb (Finite lat) (Finite 90)) with (Qle_bool 90 lat).
  change (Float.leb (Finite lat) (Finite (-90))) with (Qle_bool lat (-90)).
  assert (Qle_bool 90 lat = false) as ->.
  { destruct (Qle_bool 90 lat) eqn:Hb; [|done].
    apply Qle_bool_iff in Hb. by apply Qle_not_lt in Hb. }
  assert (Qle_bool lat (-90) = false) as ->; [|done].
  destruct (Qle_bool lat (-90)) eqn:Hb; [|done].
  apply Qle_bool_iff in Hb. by apply Qle_not_lt in Hb.
Qed.

Lemma near_dupe_hashes_locatable (cls : DeduperClass) (a : Address) (p : option Z)
    (lat lon : Q) :
  locatable a lat lon → value (cls_component_expansions cls a) ≠ [] →
  value (AddressDeduper.near_dupe_hashes cls a p)
  = AddressDeduper.yield_keys (cells_of p (Finite lat) (Finite lon)) (value (cls_component_expansions cls a)).
Proof.
  intros Hloc Hexp. rewrite near_dupe_hashes_eq.
  pose proof Hloc as (-> & -> & _).
  rewrite (no_emission_locatable a) by done.
  destruct (any_nonempty _) eqn:Hany; cbn [negb value fst]; [done|].
  apply any_nonempty_false in Hany as [?|Hin]; [done|].
  unfold AddressDeduper.yield_keys. rewrite product_nil_in; [done | by right].
Qed.

Lemma address_keys_elem (a : Address) (p : option Z) (lat lon : Q) (k : string) :
  locatable a lat lon →
  k ∈ value (AddressDeduper.near_dupe_hashes AddressDeduper.cls a p)
  ↔ ∃ c s h, c ∈ cells_of p (Finite lat) (Finite lon)
             ∧ s ∈ expansions_of a STREET ADDRESS_STREET
             ∧ h ∈ expansions_of a HOUSE_NUMBER ADDRESS_HOUSE_NUMBER
             ∧ k = PyStr.join "|" [c; s; h].
Proof.
  intros Hloc. unfold expansions_of.
  destruct (truthy (get a STREET)) as [street|] eqn:Hs;
    [destruct (truthy (get a HOUSE_NUMBER)) as [number|] eqn:Hh|].
  - rewrite (near_dupe_hashes_locatable _ a p lat lon Hloc);
      cbn [cls_component_expansions AddressDeduper.cls];
      rewrite component_expansions_eq, Hs, Hh; cbn [value fst]; [|done].
    rewrite yield_keys_elem. split.
    + intros (c & t & Hc & Ht & ->).
      apply Forall2_cons_inv_r in Ht as (s & t' & ? & Ht & ->).
      apply Forall2_cons_inv_r in Ht as (h & t'' & ? & ->%Forall2_nil_inv_r & ->).
      by exists c, s, h.
    + intros (c & s & h & ? & ? & ? & ->). exists c, [s; h].
      split; [done|]. split; [|done]. by repeat constructor.
  - split; [|by intros (? & ? & ? & _ & _ & ?%not_elem_of_nil & _)].
    rewrite near_dupe_hashes_eq. pose proof Hloc as (-> & -> & _).
    cbn [cls_component_expansions AddressDeduper.cls].
    rewrite component_expansions_eq, Hs, Hh. cbn [value calls fst snd].
    rewrite (no_emission_locatable a) by done. by intros ?%not_elem_of_nil.
  - split; [|by intros (? & ? & ? & _ & ?%not_elem_of_nil & _)].
    rewrite near_dupe_hashes_eq. pose proof Hloc as (-> & -> & _).
    cbn [cls_component_expansions AddressDeduper.cls].
    rewrite component_expansions_eq, Hs. cbn [value calls fst snd].
    rewrite (no_emission_locatable a) by done. by intros ?%not_elem_of_nil.
Qed.

(** X19. Two records whose coordinates both allow keys share a blocking key
    as soon as a cell is enumerated for both, the Expander gives their streets
    a common expansion and their house numbers a common expansion.  In
    particular neighbouring cells suffice: the records need not fall in the
    same cell. *)
Theorem near_dupe_hashes_shared_key (a1 a2 : Address) (p : option Z)
    (lat1 lon1 lat2 lon2 : Q) (c s h : string) :
  locatable a1 lat1 lon1 → locatable a2 lat2 lon2 →
  c ∈ cells_of p (Finite lat1) (Finite lon1) → c ∈ cells_of p (Finite lat2) (Finite lon2) →
  s ∈ expansions_of a1 STREET ADDRESS_STREET →
  s ∈ expansions_of a2 STREET ADDRESS_STREET →
  h ∈ expansions_of a1 HOUSE_NUMBER ADDRESS_HOUSE_NUMBER →
  h ∈ expansions_of a2 HOUSE_NUMBER ADDRESS_HOUSE_NUMBER →
  PyStr.join "|" [c; s; h] ∈ value (AddressDeduper.near_dupe_hashes AddressDeduper.cls a1 p)
  ∧ PyStr.join "|" [c; s; h] ∈ value (AddressDeduper.near_dupe_hashes AddressDeduper.cls a2 p).
Proof.
  intros Hl1 Hl2 ? ? ? ? ? ?.
  split; [apply (address_keys_elem a1 p lat1 lon1) | apply (address_keys_elem a2 p lat2 lon2)];
    try done; by exists c, s, h.
Qed.

Lemma add_token_hashes_elem (acc : gset string) (t w : string) :
  w ∈ value (VenueDeduper.add_token_hashes acc t) ↔ w ∈ acc ∨ stands_for t w.
Proof.
  unfold VenueDeduper.add_token_hashes, stands_for. rewrite value_bind.
  cbn [value traced mret Traced_ret fst]. fold (token_codes t).
  destruct (decide (list_to_set (token_codes t) =@{gset string} ∅)) as [He|Hne].
  - assert (token_codes t = []) as ->.
    { destruct (token_codes t) as [|x l]; [done|]. exfalso.
      apply (not_elem_of_empty (C := gset string) x). rewrite <- He.
      apply elem_of_list_to_set. by left. }
    rewrite elem_of_union, elem_of_singleton. split.
    + intros [?|?]; auto.
    + intros [?|[?%not_elem_of_nil|[_ ?]]]; [by left | done | by right].
  - rewrite elem_of_union, elem_of_list_to_set. split.
    + intros [?|?]; auto.
    + intros [?|[?|[Hnil _]]]; auto. by rewrite Hnil in Hne.
Qed.

Lemma token_loop_elem (ts : list string) (acc : gset string) (w : string) :
  w ∈ value (VenueDeduper.for_each VenueDeduper.add_token_hashes ts acc)
  ↔ w ∈ acc ∨ ∃ t, t ∈ ts ∧ stands_for t w.
Proof.
  revert acc. induction ts as [|t ts IH]; intros acc; cbn [VenueDeduper.for_each].
  - cbn. split; [auto | by intros [?|(? & ?%not_elem_of_nil & _)]].
  - rewrite value_bind, IH, add_token_hashes_elem. split.
    + intros [[?|?]|(t' & ? & ?)]; [auto | right; exists t | right; exists t'];
        (split; [|done]); by constructor.
    + intros [?|(t' & [->|?]%elem_of_cons & ?)]; eauto.
Qed.

Lemma expansion_loop_elem (ns : list string) (acc : gset string) (w : string) :
  w ∈ value (VenueDeduper.for_each
               (λ words n, VenueDeduper.for_each VenueDeduper.add_token_hashes
                             (NameDeduper.tokenize n) words) ns acc)
  ↔ w ∈ acc ∨ ∃ n t, n ∈ ns ∧ t ∈ NameDeduper.tokenize n ∧ stands_for t w.
Proof.
  revert acc. induction ns as [|n ns IH]; intros acc; cbn [VenueDeduper.for_each].
  - cbn. split; [auto | by intros [?|(? & ? & ?%not_elem_of_nil & _)]].
  - rewrite value_bind, IH, token_loop_elem. split.
    + intros [[?|(t & ? & ?)]|(n' & t & ? & ? & ?)];
        [auto | right; exists n, t | right; exists n', t];
        (split; [by constructor | done]).
    + intros [?|(n' & t & [->|?]%elem_of_cons & ? & ?)]; eauto 8.
Qed.

(** X20. The name-word hashes of a name are the phonetic codes of the tokens
    of its expansions, a token without any code standing for itself: a word
    is in the set exactly when it stands for a token of an expansion. *)
Theorem name_word_hashes_elem (name w : string) :
  w ∈ value (VenueDeduper.name_word_hashes name)
  ↔ ∃ n t, n ∈ expand_address name ADDRESS_NAME
           ∧ t ∈ NameDeduper.tokenize n
           ∧ (w ∈ token_codes t ∨ (token_codes t = [] ∧ w = t)).
Proof.
  unfold VenueDeduper.name_word_hashes. rewrite value_bind.
  cbn [value traced fst]. rewrite expansion_loop_elem.
  split; [by intros [?%not_elem_of_empty|?] | auto].
Qed.

Lemma venue_component_expansions_value (a : Address) :
  value (VenueDeduper.component_expansions a)
  = match truthy (get a NAME), truthy (get a STREET), truthy (get a HOUSE_NUMBER) with
    | Some name, Some street, Some house_number =>
        [elements (value (VenueDeduper.name_word_hashes name));
         expand_address street ADDRESS_STREET;
         expand_address house_number ADDRESS_HOUSE_NUMBER]
    | _, _, _ => []
    end.
Proof.
  unfold VenueDeduper.component_expansions.
  destruct (truthy (get a NAME)) as [name|]; [|done].
  rewrite value_bind, component_expansions_eq.
  by destruct (truthy (get a STREET)), (truthy (get a HOUSE_NUMBER)).
Qed.

(** X21. [VenueDeduper.component_expansions] returns the empty tuple, and
    [VenueDeduper.near_dupe_hashes] yields no key, without calling any
    collaborator, when the record lacks a non-empty name, street or house
    number. *)
Theorem venue_near_dupe_hashes_missing_field (a : Address) (p : option Z) :
  ¬ has_component a NAME ∨ ¬ has_component a STREET ∨ ¬ has_component a HOUSE_NUMBER →
  VenueDeduper.component_expansions a = ([], [])
  ∧ AddressDeduper.near_dupe_hashes VenueDeduper.cls a p = ([], []).
Proof.
  intros Hlack.
  assert (VenueDeduper.component_expansions a = ([], [])) as Hexp.
  { unfold VenueDeduper.component_expansions.
    destruct (truthy (get a NAME)) as [name|] eqn:Hn; [|done].
    rewrite component_expansions_eq.
    destruct Hlack as [Hl%truthy_None|[Hl%truthy_None|Hl%truthy_None]];
      [congruence | by rewrite Hl |].
    rewrite Hl. by destruct (truthy (get a STREET)). }
  split; [done|].
  rewrite near_dupe_hashes_eq. cbn [cls_component_expansions VenueDeduper.cls].
  rewrite Hexp. cbn [value calls fst snd].
  destruct (get_coordinate a LATITUDE) as [lat|]; [|done].
  destruct (get_coordinate a LONGITUDE) as [lon|]; [|done].
  assert (no_emission lat lon [] = true) as ->; [|done].
  unfold no_emission. cbn. by rewrite orb_true_r.
Qed.

(** X22. For a venue with a name, a street, a house number and coordinates
    that allow keys, [VenueDeduper.near_dupe_hashes] yields one key per tuple
    of the Cartesian product of the cells, the name-word hashes, the street
    expansions and the house-number expansions: a key is a cell, a name-word
    hash, a street expansion and a house-number expansion joined with bars. *)
Theorem venue_near_dupe_hashes_keys (a : Address) (p : option Z) (lat lon : Q)
    (name street house_number : string) :
  locatable a lat lon →
  get a NAME = Some name → name ≠ "" →
  get a STREET = Some street → street ≠ "" →
  get a HOUSE_NUMBER = Some house_number → house_number ≠ "" →
  value (AddressDeduper.near_dupe_hashes VenueDeduper.cls a p)
  = PyStr.join "|" <$> product [cells_of p (Finite lat) (Finite lon);
                                elements (value (VenueDeduper.name_word_hashes name));
                                expand_address street ADDRESS_STREET;
                                expand_address house_number ADDRESS_HOUSE_NUMBER]
  ∧ ∀ k, k ∈ value (AddressDeduper.near_dupe_hashes VenueDeduper.cls a p)
         ↔ ∃ c w s h, c ∈ cells_of p (Finite lat) (Finite lon)
                      ∧ w ∈ value (VenueDeduper.name_word_hashes name)
                      ∧ s ∈ expand_address street ADDRESS_STREET
                      ∧ h ∈ expand_address house_number ADDRESS_HOUSE_NUMBER
                      ∧ k = PyStr.join "|" [c; w; s; h].
Proof.
  intros Hloc Hn ? Hs ? Hh ?.
  assert (value (VenueDeduper.component_expansions a)
          = [elements (value (VenueDeduper.name_word_hashes name));
             expand_address street ADDRESS_STREET;
             expand_address house_number ADDRESS_HOUSE_NUMBER]) as Hexp.
  { rewrite venue_component_expansions_value.
    by rewrite (truthy_has a NAME name), (truthy_has a STREET street),
      (truthy_has a HOUSE_NUMBER house_number). }
  rewrite (near_dupe_hashes_locatable _ a p lat lon Hloc);
    cbn [cls_component_expansions VenueDeduper.cls]; rewrite Hexp; [|done].
  split; [done|]. intros k. rewrite yield_keys_elem. split.
  - intros (c & t & Hc & Ht & ->).
    apply Forall2_cons_inv_r in Ht as (w & t1 & Hw & Ht & ->).
    apply Forall2_cons_inv_r in Ht as (s & t2 & ? & Ht & ->).
    apply Forall2_cons_inv_r in Ht as (h & t3 & ? & ->%Forall2_nil_inv_r & ->).
    apply elem_of_elements in Hw. by exists c, w, s, h.
  - intros (c & w & s & h & ? & Hw & ? & ? & ->). exists c, [w; s; h].
    split; [done|]. split; [|done].
    apply elem_of_elements in Hw. by repeat constructor.
Qed.

End Keys.

(** ** Parentheticals *)

Lemma paren_match_tail_none (s : string) :
  ")"%char ∉ chars s → NameDeduper.paren_match_tail s = None.
Proof.
  induction s as [|c s IH]; [done|]. cbn [chars list_ascii_of_string]. fold (chars s).
  intros Hnot. apply not_elem_of_cons in Hnot as [Hc Hs].
  cbn [NameDeduper.paren_match_tail]. rewrite (IH Hs).
  destruct (decide (c = NameDeduper.newline)); [done|].
  by rewrite decide_False by done.
Qed.

Lemma paren_regex_sub_fuel_id (fuel : nat) (s : string) :
  "("%char ∉ chars s ∨ ")"%char ∉ chars s →
  NameDeduper.paren_regex_sub_fuel fuel s = s.
Proof.
  revert s. induction fuel as [|fuel IH]; intros s Hs; [by destruct s|].
  destruct s as [|c s]; [done|].
  cbn [NameDeduper.paren_regex_sub_fuel].
  cbn [chars list_ascii_of_string] in Hs. fold (chars s) in Hs.
  assert ("("%char ∉ chars s ∨ ")"%char ∉ chars s) as Hs'.
  { destruct Hs as [Hn|Hn]; apply not_elem_of_cons in Hn as [_ ?]; auto. }
  destruct (decide (c = "("%char)) as [->|Hc].
  - destruct Hs as [Hn|Hn]; [by apply not_elem_of_cons in Hn as [? _]|].
    apply not_elem_of_cons in Hn as [_ Hn].
    rewrite (paren_match_tail_none s Hn). by rewrite IH.
  - by rewrite IH.
Qed.

(** X23. Removing the parentheticals leaves a string unchanged when it has
    no opening parenthesis or no closing parenthesis. *)
Theorem paren_regex_sub_no_parenthesis (s : string) :
  "("%char ∉ chars s ∨ ")"%char ∉ chars s → NameDeduper.paren_regex_sub s = s.
Proof. apply paren_regex_sub_fuel_id. Qed.

(** ** Venue dupes and address dupes *)

Section VenueAndAddress.
Context `{Expander} `{GeoHasher} `{Floats} `{PhoneticEncoder} `{SimilarityScorer}.

(** X24. A pair of records that [VenueDeduper.is_dupe] takes for dupes is
    also a pair of dupes for [AddressDeduper.is_dupe] called with the same
    [with_unit], and both records have a name. *)
Theorem venue_dupe_is_address_dupe (a1 a2 : Address) (tfidf : option tfidf_model)
    (name_dupe_threshold : option Q) (with_unit : bool) :
  value (VenueDeduper.is_dupe a1 a2 tfidf name_dupe_threshold (Some with_unit)) = Some true →
  value (AddressDeduper.is_dupe a1 a2 (Some with_unit)) = Some true
  ∧ has_component a1 NAME ∧ has_component a2 NAME.
Proof.
  intros Hv.
  destruct (truthy (get a1 NAME)) as [n1|] eqn:Hn1;
    [destruct (truthy (get a2 NAME)) as [n2|] eqn:Hn2|];
    [|by rewrite venue_is_dupe_no_name in Hv by auto..].
  rewrite (venue_is_dupe_value a1 a2 n1 n2) in Hv by done.
  rewrite address_is_dupe_value.
  apply truthy_Some in Hn1. apply truthy_Some in Hn2.
  split; [|split; [by exists n1 | by exists n2]].
  destruct (value (AddressDeduper.is_address_dupe a1 a2)) as [[]|]; [|done..].
  cbn [default] in *.
  destruct with_unit; [|done].
  by destruct (value (AddressDeduper.is_sub_building_dupe a1 a2)).
Qed.

End VenueAndAddress.

(** ** Witnesses of the further properties *)

Section MoreWitnesses.
Import Sample.

Lemma content_tokens_case_insensitive_witness :
  NameDeduper.content_tokens NameDeduper.base (PyStr.lower "Cafe LUNA")
  = NameDeduper.content_tokens NameDeduper.base "Cafe LUNA"
  ∧ NameDeduper.content_tokens NameDeduper.base "Cafe LUNA"
    = NameDeduper.content_tokens NameDeduper.base "cafe Luna".
Proof.
  split.
  - apply (proj1 (content_tokens_case_insensitive NameDeduper.base "Cafe LUNA" "")).
  - apply (proj2 (content_tokens_case_insensitive NameDeduper.base "Cafe LUNA" "cafe Luna")).
    reflexivity.
Defined.

Lemma compare_ideographs_spec_witness :
  NameDeduper.compare_ideographs NameDeduper.base "Cabbage Town" "cabbagetown" = 1%Q
  ∧ NameDeduper.compare_ideographs NameDeduper.base "ab cd" "ab ef"
    = jaccard_similarity (NameDeduper.tokenize (PyStr.lower "ab cd"))
                         (NameDeduper.tokenize (PyStr.lower "ab ef")).
Proof.
  split.
  - apply (proj1 (compare_ideographs_spec NameDeduper.base "Cabbage Town" "cabbagetown")).
    reflexivity.
  - apply (proj1 (proj2 (compare_ideographs_spec NameDeduper.base "ab cd" "ab ef"))).
    discriminate.
Defined.

Lemma is_sub_building_dupe_asymmetric_witness :
  value (AddressDeduper.is_sub_building_dupe suite5 cafe) = false.
Proof.
  apply (is_sub_building_dupe_asymmetric suite5 cafe UNIT); [by left|].
  left. split.
  - exists "Suite 5". split; [reflexivity | discriminate].
  - intros (s & Hs & _). vm_compute in Hs. discriminate Hs.
Defined.

Lemma is_sub_building_dupe_no_fields_witness :
  AddressDeduper.is_sub_building_dupe cafe cafe' = (true, []).
Proof.
  apply is_sub_building_dupe_no_fields;
    intros (s & Hs & _); vm_compute in Hs; discriminate Hs.
Defined.

Lemma address_is_dupe_short_circuit_witness :
  AddressDeduper.is_dupe cafe number14 None = AddressDeduper.is_address_dupe cafe number14.
Proof.
  apply address_is_dupe_short_circuit. right. vm_compute. discriminate.
Defined.

Lemma venue_is_dupe_address_decides_witness :
  VenueDeduper.is_dupe cafe number14 (Some model) None None
  = AddressDeduper.is_address_dupe cafe number14.
Proof.
  apply venue_is_dupe_address_decides.
  - exists "Cafe Luna". split; [reflexivity | discriminate].
  - exists "Cafe Luna". split; [reflexivity | discriminate].
  - vm_compute. discriminate.
Defined.

Lemma venue_is_dupe_unit_mismatch_witness :
  value (VenueDeduper.is_dupe suite5 suite6 (Some model) None (Some true)) = Some false
  ∧ calls (VenueDeduper.is_dupe suite5 suite6 (Some model) None (Some true))
    = calls (AddressDeduper.is_address_dupe suite5 suite6)
      ++ calls (AddressDeduper.is_sub_building_dupe suite5 suite6).
Proof.
  apply venue_is_dupe_unit_mismatch.
  - exists "Cafe Luna". split; [reflexivity | discriminate].
  - exists "Cafe Luna". split; [reflexivity | discriminate].
  - vm_compute. reflexivity.
  - vm_compute. reflexivity.
Defined.

Lemma venue_is_dupe_names_decide_witness :
  value (VenueDeduper.is_dupe cafe bar (Some model) None None)
  = Some (value (VenueDeduper.is_exact_name_dupe "Cafe Luna" "Bar Sol")
          || Qle_bool (default NameDeduper.default_dupe_threshold None)
               (value (NameDeduper.compare_in_memory
                         (NameDeduper.content_tokens NameDeduper.base "Cafe Luna")
                         (NameDeduper.content_tokens NameDeduper.base "Bar Sol") model))).
Proof.
  apply (venue_is_dupe_names_decide cafe bar "Cafe Luna" "Bar Sol" (Some model) None None).
  - reflexivity.
  - discriminate.
  - reflexivity.
  - discriminate.
  - vm_compute. reflexivity.
  - left. discriminate.
Defined.

Lemma venue_is_dupe_exact_name_witness :
  VenueDeduper.is_dupe cafe cafe' (Some model) (Some 1%Q) None
  = VenueDeduper.is_dupe cafe cafe' None None None.
Proof.
  apply (venue_is_dupe_exact_name cafe cafe' "Cafe Luna" "Cafe Luna").
  - reflexivity.
  - discriminate.
  - reflexivity.
  - discriminate.
  - vm_compute. reflexivity.
Defined.

Lemma venue_is_dupe_reads_witness :
  VenueDeduper.is_dupe cafe cafe None None None
  = VenueDeduper.is_dupe suite5 polar None None None.
Proof.
  apply venue_is_dupe_reads.
  - intros key Hkey. repeat (apply elem_of_cons in Hkey as [-> | Hkey]; [reflexivity|]).
    by apply not_elem_of_nil in Hkey.
  - intros key Hkey. repeat (apply elem_of_cons in Hkey as [-> | Hkey]; [reflexivity|]).
    by apply not_elem_of_nil in Hkey.
  - discriminate.
Defined.

Lemma venue_is_dupe_symmetric_witness :
  value (VenueDeduper.is_dupe cafe bar (Some model) None None)
  = value (VenueDeduper.is_dupe bar cafe (Some model) None None).
Proof.
  apply venue_is_dupe_symmetric.
  intros v1 v2. cbn. repeat case_decide; congruence.
Defined.

Lemma geo_cell_precision_witness :
  chars (geo_cell (Some 6%Z) (Finite 57.64911) (Finite 10.40744))
  = take (Z.to_nat 6) (chars (geohash_encode (Finite 57.64911) (Finite 10.40744)))
  ∧ String.length (geo_cell (Some 6%Z) (Finite 57.64911) (Finite 10.40744))
    = Nat.min (Z.to_nat 6)
              (String.length (geohash_encode (Finite 57.64911) (Finite 10.40744)))
  ∧ geo_cell (Some 6%Z) (Finite 57.64911) (Finite 10.40744)
    = PyStr.slice_to 6 (geo_cell (Some 7%Z) (Finite 57.64911) (Finite 10.40744)).
Proof. apply geo_cell_precision. lia. Defined.

Lemma sample_locatable : locatable cafe 57.64911%Q 10.40744%Q.
Proof. repeat split. Qed.

Lemma sample_locatable' : locatable cafe' 57.64911%Q 10.40744%Q.
Proof. repeat split. Qed.

Lemma near_dupe_hashes_shared_key_witness :
  PyStr.join "|" ["u4pruyd-n"; "main street"; "12"]
    ∈ value (AddressDeduper.near_dupe_hashes AddressDeduper.cls cafe None)
  ∧ PyStr.join "|" ["u4pruyd-n"; "main street"; "12"]
    ∈ value (AddressDeduper.near_dupe_hashes AddressDeduper.cls cafe' None).
Proof.
  apply (near_dupe_hashes_shared_key cafe cafe' None
           57.64911%Q 10.40744%Q 57.64911%Q 10.40744%Q).
  - apply sample_locatable.
  - apply sample_locatable'.
  - vm_compute. right. left.
  - vm_compute. right. left.
  - vm_compute. right. left.
  - vm_compute. left.
  - vm_compute. left.
  - vm_compute. left.
Defined.

Lemma venue_near_dupe_hashes_missing_field_witness :
  VenueDeduper.component_expansions nameless = ([], [])
  ∧ AddressDeduper.near_dupe_hashes VenueDeduper.cls nameless None = ([], []).
Proof.
  apply venue_near_dupe_hashes_missing_field. left.
  intros (s & Hs & _). vm_compute in Hs. discriminate Hs.
Defined.

Lemma venue_near_dupe_hashes_keys_witness :
  value (AddressDeduper.near_dupe_hashes VenueDeduper.cls cafe None)
  = PyStr.join "|" <$> product [cells_of None (Finite 57.64911) (Finite 10.40744);
                                elements (value (VenueDeduper.name_word_hashes "Cafe Luna"));
                                expand_address "Main St" ADDRESS_STREET;
                                expand_address "12" ADDRESS_HOUSE_NUMBER]
  ∧ ∀ k, k ∈ value (AddressDeduper.near_dupe_hashes VenueDeduper.cls cafe None)
         ↔ ∃ c w s h, c ∈ cells_of None (Finite 57.64911) (Finite 10.40744)
                      ∧ w ∈ value (VenueDeduper.name_word_hashes "Cafe Luna")
                      ∧ s ∈ expand_address "Main St" ADDRESS_STREET
                      ∧ h ∈ expand_address "12" ADDRESS_HOUSE_NUMBER
                      ∧ k = PyStr.join "|" [c; w; s; h].
Proof.
  apply venue_near_dupe_hashes_keys;
    [apply sample_locatable | reflexivity | discriminate
     | reflexivity | discriminate | reflexivity | discriminate].
Defined.

Lemma paren_regex_sub_no_parenthesis_witness :
  NameDeduper.paren_regex_sub "Cafe Luna)" = "Cafe Luna)".
Proof.
  apply paren_regex_sub_no_parenthesis. left.
  intros Hin. vm_compute in Hin.
  repeat (apply elem_of_cons in Hin as [Hin | Hin]; [discriminate Hin|]).
  by apply not_elem_of_nil in Hin.
Defined.

Lemma venue_dupe_is_address_dupe_witness :
  value (AddressDeduper.is_dupe cafe cafe' (Some true)) = Some true
  ∧ has_component cafe NAME ∧ has_component cafe' NAME.
Proof.
  apply (venue_dupe_is_address_dupe cafe cafe' None None true).
  vm_compute. reflexivity.
Defined.

End MoreWitnesses.
